(** * batch.py: splitting a directory of files into numbered batches

    A shallow embedding of [batch.py] (the lister, the partitioner, the
    materializer and the command line front end) together with the
    properties its specification states about them.

    Python objects are modelled as the program uses them: integers are
    unbounded ([Z]), strings are [string], the [dict] of batches is an
    insertion-ordered association list, list objects live in a heap so
    that in-place mutation is visible to the caller, and every function
    that can raise returns a [result]. *)

From Stdlib Require Import Ascii String.
From stdpp Require Import base option list list_numbers strings pretty gmap.

Local Open Scope string_scope.
Local Open Scope Z_scope.

(** ** Python values and exceptions *)

(** The values that reach the parameters [batch_size], [shuffle] and
    [seed]: the defaults of the parser ([100], [True], [None]) and the
    strings argparse stores when a flag is supplied. *)
Inductive pyval : Type :=
  | PyNone
  | PyBool (b : bool)
  | PyInt (z : Z)
  | PyStr (s : string).

(** Exceptions raised by the builtins and the library calls of the
    program.  [InvalidReference] is not a Python exception: it is the
    outcome of reading an address outside the heap, which no Python
    variable can hold. *)
Inductive exn : Type :=
  | TypeError
  | ValueError
  | FileNotFoundError
  | FileExistsError
  | NotADirectoryError
  | IsADirectoryError
  | DirectoryNotEmpty
  | SameFileError
  | SystemExit (code : Z)
  | InvalidReference.

Inductive result (A : Type) : Type :=
  | Ok (a : A)
  | Raise (e : exn).
Arguments Ok {A} a.
Arguments Raise {A} e.

(** [bool(v)], the truth value tested by [if shuffle:]. *)
Definition truthy (v : pyval) : bool :=
  match v with
  | PyNone => false
  | PyBool b => b
  | PyInt z => negb (z =? 0)
  | PyStr s => negb (String.eqb s "")
  end.

(** [operator.index(v)]: what [range] and integer addition accept.  A
    [bool] is an [int]; [str] and [None] are not. *)
Definition as_int (v : pyval) : result Z :=
  match v with
  | PyInt z => Ok z
  | PyBool b => Ok (if b then 1 else 0)
  | PyStr _ | PyNone => Raise TypeError
  end.

(** ** Builtins: [range], slicing, [enumerate], [dict] assignment *)

(** Number of elements of [range(start, stop, step)] for [step <> 0]. *)
Definition range_len (start stop step : Z) : Z :=
  if (0 <? step) && (start <? stop) then 1 + (stop - 1 - start) `div` step
  else if (step <? 0) && (stop <? start) then 1 + (start - 1 - stop) `div` (- step)
  else 0.

(** [range(start, stop, step)], with the [ValueError] of a zero step. *)
Definition py_range (start stop step : Z) : result (list Z) :=
  if step =? 0 then Raise ValueError
  else Ok ((λ k, start + k * step) <$> seqZ 0 (range_len start stop step)).

(** A slice bound is clamped into [0..len], counting from the end when it
    is negative. *)
Definition clamp_index (len i : Z) : Z :=
  if i <? 0 then Z.max 0 (i + len) else Z.min i len.

(** [l[lo:hi]]: a fresh list; out-of-range bounds are clamped, never an
    error. *)
Definition py_slice {A} (l : list A) (lo hi : Z) : list A :=
  let n := Z.of_nat (length l) in
  let a := clamp_index n lo in
  let b := clamp_index n hi in
  take (Z.to_nat (b - a)) (drop (Z.to_nat a) l).

(** [enumerate(xs, start)]. *)
Fixpoint enumerate {A} (xs : list A) (start : Z) : list (Z * A) :=
  match xs with
  | [] => []
  | x :: xs' => (start, x) :: enumerate xs' (start + 1)
  end.

(** A [dict] with integer keys, in insertion order. *)
Definition dict (V : Type) : Type := list (Z * V).

(** [d[k] = v]: an existing key keeps its position, a new key goes last. *)
Fixpoint dict_set {V} (d : dict V) (k : Z) (v : V) : dict V :=
  match d with
  | [] => [(k, v)]
  | (k', v') :: d' =>
      if decide (k' = k) then (k, v) :: d' else (k', v') :: dict_set d' k v
  end.

(** [d.get(k)]. *)
Fixpoint dict_get {V} (d : dict V) (k : Z) : option V :=
  match d with
  | [] => None
  | (k', v) :: d' => if decide (k' = k) then Some v else dict_get d' k
  end.

(** ** The random module *)

(** The process-wide generator behind [random.seed] and [random.shuffle].
    [rng_seed a] is the state [random.seed(a)] installs, a function of [a]
    alone; [randbelow n] draws an index below [n] and advances the
    state. *)
Class Rng (G : Type) : Type := {
  rng_seed : pyval → G;
  randbelow : nat → G → nat * G;
  randbelow_lt : ∀ n g, (0 < n)%nat → ((randbelow n g).1 < n)%nat
}.

(** [x[i], x[j] = x[j], x[i]].  Both indices are in range where
    [random.shuffle] uses it, as the index drawn is below [i + 1]: the
    [IndexError] of an index out of range does not arise, and the list is
    left alone in that case here. *)
Definition swap {A} (i j : nat) (x : list A) : list A :=
  match x !! i, x !! j with
  | Some a, Some b => <[j:=a]> (<[i:=b]> x)
  | _, _ => x
  end.

Section random.
Context {G : Type} `{!Rng G} {A : Type}.

(** The loop of [random.shuffle]:
    [for i in reversed(range(1, len(x))): j = randbelow(i + 1)] followed by
    the exchange of [x[i]] and [x[j]]. *)
Fixpoint shuffle_from (i : nat) (x : list A) (g : G) : list A * G :=
  match i with
  | O => (x, g)
  | S i' =>
      let '(j, g') := randbelow (i + 1)%nat g in
      shuffle_from i' (swap i j x) g'
  end.

Definition random_shuffle (x : list A) (g : G) : list A * G :=
  shuffle_from (length x - 1)%nat x g.

End random.

(** ** The state of a run *)

(** A node of the file system: a regular file with its content, or a
    directory.  The file system maps absolute path strings to nodes. *)
Inductive node : Type :=
  | File (content : string)
  | Dir.

#[global] Instance node_eq_dec : EqDecision node.
Proof. solve_decision. Defined.

(** A list object is named by its address in the heap. *)
Definition loc : Type := nat.

(** What a run can read and change: the process-wide generator, the heap of
    list objects, the working directory and the file system. *)
Record world (G : Type) : Type := World {
  w_rng : G;
  w_heap : list (list string);
  w_cwd : string;
  w_fs : gmap string node
}.
Arguments World {G} _ _ _ _.
Arguments w_rng {G} _.
Arguments w_heap {G} _.
Arguments w_cwd {G} _.
Arguments w_fs {G} _.

Definition set_rng {G} (g : G) (w : world G) : world G :=
  World g (w_heap w) (w_cwd w) (w_fs w).
Definition set_heap {G} (h : list (list string)) (w : world G) : world G :=
  World (w_rng w) h (w_cwd w) (w_fs w).
Definition set_fs {G} (fs : gmap string node) (w : world G) : world G :=
  World (w_rng w) (w_heap w) (w_cwd w) fs.

(** A computation: it transforms the world and returns a value or raises.
    The world it leaves behind is kept in both cases, as a Python exception
    does not undo the mutations made before it. *)
Definition M (G A : Type) : Type := world G → world G * result A.

Definition ret {G A} (a : A) : M G A := λ w, (w, Ok a).
Definition raise {G A} (e : exn) : M G A := λ w, (w, Raise e).
Definition bind {G A B} (m : M G A) (k : A → M G B) : M G B :=
  λ w, match m w with
       | (w', Ok a) => k a w'
       | (w', Raise e) => (w', Raise e)
       end.
Definition lift {G A} (r : result A) : M G A := λ w, (w, r).

#[global] Instance M_ret {G} : MRet (M G) := @ret G.
#[global] Instance M_bind {G} : MBind (M G) := λ A B k m, bind m k.

(** A [for] loop that threads the local variable it updates. *)
Fixpoint for_fold {G X S} (xs : list X) (body : S → X → M G S) (s : S) : M G S :=
  match xs with
  | [] => ret s
  | x :: xs' => s' ← body s x; for_fold xs' body s'
  end.

(** A [for] loop run for its effects. *)
Fixpoint for_each {G X} (xs : list X) (body : X → M G unit) : M G unit :=
  match xs with
  | [] => ret tt
  | x :: xs' => body x;; for_each xs' body
  end.

(** ** The partitioner *)

Section partitioner.
Context {G : Type} `{!Rng G}.

(** [random.seed(a)]: replaces the state of the process-wide generator. *)
Definition random_seed (a : pyval) : M G unit :=
  λ w, (set_rng (rng_seed a) w, Ok tt).

(** [random.shuffle(x)]: reorders the list object [x] in place. *)
Definition random_shuffle_in_place (x : loc) : M G unit :=
  λ w, match w_heap w !! x with
       | Some xs =>
           let '(xs', g') := random_shuffle xs (w_rng w) in
           (set_heap (<[x:=xs']> (w_heap w)) (set_rng g' w), Ok tt)
       | None => (w, Raise InvalidReference)
       end.

(** [len(x)] of a list object. *)
Definition py_len (x : loc) : M G Z :=
  λ w, match w_heap w !! x with
       | Some xs => (w, Ok (Z.of_nat (length xs)))
       | None => (w, Raise InvalidReference)
       end.

(** [x[lo:hi]] of a list object: a new list, the object is not changed. *)
Definition py_getslice (x : loc) (lo hi : Z) : M G (list string) :=
  λ w, match w_heap w !! x with
       | Some xs => (w, Ok (py_slice xs lo hi))
       | None => (w, Raise InvalidReference)
       end.

(** [range(0, stop, step)] where [step] is any object. *)
Definition range_from_zero (stop : Z) (step : pyval) : result (list Z) :=
  match as_int step with
  | Ok s => py_range 0 stop s
  | Raise e => Raise e
  end.

(** [i + v] for an integer [i]. *)
Definition int_add (i : Z) (v : pyval) : result Z :=
  match as_int v with
  | Ok z => Ok (i + z)
  | Raise e => Raise e
  end.

Definition split_filepaths_into_batches
    (all_image_paths : loc) (batch_size shuffle seed : pyval)
    : M G (dict (list string)) :=
  (match seed with PyNone => ret tt | _ => random_seed seed end);;
  (if truthy shuffle then random_shuffle_in_place all_image_paths else ret tt);;
  n ← py_len all_image_paths;
  r ← lift (range_from_zero n batch_size);
  for_fold (enumerate r 1)
    (λ batches '(j, i),
       hi ← lift (int_add i batch_size);
       b ← py_getslice all_image_paths i hi;
       ret (dict_set batches j b))
    [].

End partitioner.

(** ** Paths: [os.path] on POSIX *)

Definition sep : Ascii.ascii := "/"%char.

Definition is_sep (c : Ascii.ascii) : bool := Ascii.eqb c sep.

Fixpoint has_sep (s : string) : bool :=
  match s with
  | EmptyString => false
  | String c s' => is_sep c || has_sep s'
  end.

Definition starts_with_sep (s : string) : bool :=
  match s with
  | EmptyString => false
  | String c _ => is_sep c
  end.

Fixpoint ends_with_sep (s : string) : bool :=
  match s with
  | EmptyString => false
  | String c EmptyString => is_sep c
  | String _ s' => ends_with_sep s'
  end.

(** [s.rstrip('/')]. *)
Fixpoint rstrip_sep (s : string) : string :=
  match s with
  | EmptyString => EmptyString
  | String c s' =>
      match rstrip_sep s' with
      | EmptyString => if is_sep c then EmptyString else String c EmptyString
      | r => String c r
      end
  end.

(** [os.path.join(a, p)]: an absolute [p] discards [a]; a separator is
    inserted unless [a] is empty or already ends with one. *)
Definition os_path_join (a p : string) : string :=
  if starts_with_sep p then p
  else if String.eqb a "" || ends_with_sep a then a +:+ p
  else a +:+ "/" +:+ p.

(** [(p[:i], p[i:])] for [i = p.rfind('/') + 1]. *)
Fixpoint cut_at_last_sep (p : string) : string * string :=
  match p with
  | EmptyString => (EmptyString, EmptyString)
  | String c p' =>
      if has_sep p' then
        let '(h, t) := cut_at_last_sep p' in (String c h, t)
      else if is_sep c then (String c EmptyString, p')
      else (EmptyString, p)
  end.

(** [os.path.split(p)]: trailing separators are stripped from the head
    unless it consists of separators only. *)
Definition os_path_split (p : string) : string * string :=
  let '(h, t) := cut_at_last_sep p in
  match rstrip_sep h with
  | EmptyString => (h, t)
  | h' => (h', t)
  end.

Definition os_path_dirname (p : string) : string := (os_path_split p).1.
Definition os_path_basename (p : string) : string := (os_path_split p).2.

(** [p.split('/')]: the components between the separators, empty ones
    included; the list is never empty. *)
Fixpoint split_sep (p : string) : list string :=
  match p with
  | EmptyString => [EmptyString]
  | String c p' =>
      if is_sep c then EmptyString :: split_sep p'
      else match split_sep p' with
           | x :: xs => String c x :: xs
           | [] => [String c EmptyString]
           end
  end.

(** ['/'.join(comps)]. *)
Fixpoint join_sep (comps : list string) : string :=
  match comps with
  | [] => ""
  | [c] => c
  | c :: comps' => c +:+ "/" +:+ join_sep comps'
  end.

(** The [initial_slashes] of [os.path.normpath]: exactly two leading
    separators are kept, any other number counts as one. *)
Definition initial_slashes (p : string) : nat :=
  match p with
  | String c1 (String c2 (String c3 _)) =>
      if is_sep c1 then
        if is_sep c2 then if is_sep c3 then 1%nat else 2%nat else 1%nat
      else 0%nat
  | String c1 (String c2 EmptyString) =>
      if is_sep c1 then if is_sep c2 then 2%nat else 1%nat else 0%nat
  | String c1 EmptyString => if is_sep c1 then 1%nat else 0%nat
  | EmptyString => 0%nat
  end.

(** One round of the loop of [os.path.normpath] over the components;
    [new_comps] is kept with its last element first.  An empty component
    and [.] are skipped; [..] removes the component before it, unless
    there is none in a relative path or it is [..] itself, where it is
    kept; in an absolute path with nothing before it, it is dropped. *)
Definition normpath_step (initial : nat) (new_comps : list string)
    (comp : string) : list string :=
  if String.eqb comp "" || String.eqb comp "." then new_comps
  else if negb (String.eqb comp "..")
          || (Nat.eqb initial 0 && bool_decide (new_comps = []))
          || bool_decide (head new_comps = Some "..")
       then comp :: new_comps
       else tail new_comps.

(** [os.path.normpath(p)]. *)
Definition os_path_normpath (p : string) : string :=
  if String.eqb p "" then "."
  else
    let initial := initial_slashes p in
    let comps := foldl (normpath_step initial) [] (split_sep p) in
    let path :=
      match initial with
      | 0%nat => ""
      | 1%nat => "/"
      | _ => "//"
      end +:+ join_sep (reverse comps) in
    if String.eqb path "" then "." else path.

(** [os.path.abspath(p)] against the working directory [cwd]: a relative
    path is joined to [cwd], and the result is normalised. *)
Definition os_path_abspath (cwd p : string) : string :=
  os_path_normpath (os_path_join cwd p).

(** ** The file the kernel finds at a path

    The file system below is keyed by absolute paths without redundant
    parts: [/] for the root, [/a/b] for the entry [b] of [/a].  The key
    of a path is found by walking its components from the root, or from
    the working directory for a relative path. *)

(** The working directory as the names from the root down to it, the last
    one first. *)
Definition cwd_step (names : list string) (comp : string) : list string :=
  if String.eqb comp "" || String.eqb comp "." then names
  else if String.eqb comp ".." then tail names
  else comp :: names.

Definition cwd_names (cwd : string) : list string :=
  foldl cwd_step [] (split_sep cwd).

(** The walk over the components of a path.  An empty component and [.]
    stay where they are and [..] goes up, the root being its own parent.
    Once a name has been followed ([named]) a further [.] or [..] asks
    the kernel to go through the directory that name stands for, which
    depends on what the file system holds there: the walk gives no answer
    for such a path. *)
Fixpoint walk (names : list string) (named : bool) (comps : list string)
    : option (list string) :=
  match comps with
  | [] => Some names
  | comp :: comps' =>
      if String.eqb comp "" then walk names named comps'
      else if String.eqb comp "." then
        if named then None else walk names named comps'
      else if String.eqb comp ".." then
        if named then None else walk (tail names) named comps'
      else walk (comp :: names) true comps'
  end.

(** The key made of the names from the root down, the last one first. *)
Definition key_string (names : list string) : string :=
  "/" +:+ join_sep (reverse names).

(** The names from the root down to the file at path [p], the last one
    first, for a process in [cwd].  The empty path names no file: the
    kernel answers [ENOENT]. *)
Definition path_names (cwd p : string) : option (list string) :=
  if String.eqb p "" then None
  else walk (if starts_with_sep p then [] else cwd_names cwd) false
         (split_sep p).

(** The key of path [p].  A path that names no file, or that the walk
    gives no answer for, has the empty string as its key: the key of
    nothing in a file system keyed by absolute paths. *)
Definition path_key (cwd p : string) : string :=
  from_option key_string "" (path_names cwd p).

(** ** The file system: [os] and [shutil] *)

(** The names of the entries of directory [d]. *)
Definition dir_entries (fs : gmap string node) (d : string) : list string :=
  omap (λ q, if bool_decide (q ≠ d ∧ os_path_dirname q = d
                              ∧ os_path_basename q ≠ "")
             then Some (os_path_basename q) else None)
       (map_to_list fs).*1.

(** [os.mkdir(p)] on keys: the file system it leaves, and its outcome. *)
Definition mkdir_at (p : string) (fs : gmap string node)
    : gmap string node * result unit :=
  match fs !! p with
  | Some _ => (fs, Raise FileExistsError)
  | None =>
      match fs !! os_path_dirname p with
      | Some Dir => (<[p:=Dir]> fs, Ok tt)
      | Some (File _) => (fs, Raise NotADirectoryError)
      | None => (fs, Raise FileNotFoundError)
      end
  end.

(** [os.makedirs(name)] on keys, with [exist_ok=False]: when the head of
    the path is missing it is made first, recursively, a [FileExistsError]
    of that call being ignored; a tail [.] then needs nothing more;
    otherwise the leaf is made.  The directories made before a failure
    stay.  The recursion is on the head of the path, which is shorter
    than the path; [fuel] bounds it. *)
Fixpoint makedirs_at (fuel : nat) (name : string) (fs : gmap string node)
    : gmap string node * result unit :=
  let '(head, tail) := os_path_split name in
  let '(head, tail) :=
    if String.eqb tail "" then os_path_split head else (head, tail) in
  match fuel with
  | S fuel' =>
      if negb (String.eqb head "") && negb (String.eqb tail "")
         && negb (bool_decide (is_Some (fs !! head)))
      then match makedirs_at fuel' head fs with
           | (fs', Ok _) | (fs', Raise FileExistsError) =>
               if String.eqb tail "." then (fs', Ok tt) else mkdir_at name fs'
           | (fs', Raise e) => (fs', Raise e)
           end
      else mkdir_at name fs
  | O => mkdir_at name fs
  end.

(** The error of looking up a key that is not there: the nearest key
    above it that is there decides, a regular file giving [ENOTDIR] and a
    directory, or nothing at all, [ENOENT]. *)
Fixpoint missing_error (fuel : nat) (fs : gmap string node) (k : string) : exn :=
  match fs !! os_path_dirname k with
  | Some (File _) => NotADirectoryError
  | Some Dir => FileNotFoundError
  | None =>
      match fuel with
      | S fuel' =>
          if String.eqb (os_path_dirname k) k then FileNotFoundError
          else missing_error fuel' fs (os_path_dirname k)
      | O => FileNotFoundError
      end
  end.

Section os.
Context {G : Type}.

(** The key of path [p] in the file system of [w]. *)
Definition key_of (w : world G) (p : string) : string :=
  path_key (w_cwd w) p.

Definition os_getcwd : M G string := λ w, (w, Ok (w_cwd w)).

(** [os.listdir(p)].  On a regular file it raises [NotADirectoryError].
    Where nothing is found it raises the error of the walk down to the
    key: [NotADirectoryError] when that walk meets a regular file,
    [FileNotFoundError] otherwise, which is also what the empty path
    gives, nothing being at the empty key of a file system that is keyed
    by absolute paths. *)
Definition os_listdir (p : string) : M G (list string) :=
  λ w, match w_fs w !! key_of w p with
       | Some Dir => (w, Ok (dir_entries (w_fs w) (key_of w p)))
       | Some (File _) => (w, Raise NotADirectoryError)
       | None =>
           (w, Raise (missing_error (String.length (key_of w p)) (w_fs w)
                        (key_of w p)))
       end.

(** [os.path.exists(p)]. *)
Definition os_path_exists (p : string) : M G bool :=
  λ w, (w, Ok (bool_decide (is_Some (w_fs w !! key_of w p)))).

(** [os.rmdir(p)]: removes an empty directory, and nothing else. *)
Definition os_rmdir (p : string) : M G unit :=
  λ w, match w_fs w !! key_of w p with
       | Some Dir =>
           match dir_entries (w_fs w) (key_of w p) with
           | [] => (set_fs (delete (key_of w p) (w_fs w)) w, Ok tt)
           | _ :: _ => (w, Raise DirectoryNotEmpty)
           end
       | Some (File _) => (w, Raise NotADirectoryError)
       | None => (w, Raise FileNotFoundError)
       end.

(** [os.makedirs(p)]. *)
Definition os_makedirs (p : string) : M G unit :=
  λ w, let k := key_of w p in
       let '(fs', r) := makedirs_at (String.length k) k (w_fs w) in
       (set_fs fs' w, r).

(** The file [shutil.copy(src, dst)] writes to: inside [dst] under the
    name of [src] when [dst] is a directory, [dst] itself otherwise. *)
Definition copy_target (w : world G) (src dst : string) : string :=
  match w_fs w !! key_of w dst with
  | Some Dir => os_path_join (key_of w dst) (os_path_basename src)
  | _ => key_of w dst
  end.

(** [shutil.copy(src, dst)]: the content of [src] is written to the
    target.  When [dst] is a directory the parent of the target is [dst]
    itself; otherwise the parent has to be looked up.  Permission bits,
    which [shutil.copy] also copies, are not part of the file system
    here. *)
Definition shutil_copy (src dst : string) : M G unit :=
  λ w,
    let fs := w_fs w in
    let s := key_of w src in
    let d := copy_target w src dst in
    if bool_decide (s = d ∧ is_Some (fs !! s)) then (w, Raise SameFileError)
    else match fs !! s with
         | None => (w, Raise FileNotFoundError)
         | Some Dir => (w, Raise IsADirectoryError)
         | Some (File c) =>
             match fs !! d with
             | Some Dir => (w, Raise IsADirectoryError)
             | Some (File _) => (set_fs (<[d:=File c]> fs) w, Ok tt)
             | None =>
                 match fs !! key_of w dst, fs !! os_path_dirname d with
                 | Some Dir, _ | _, Some Dir =>
                     (set_fs (<[d:=File c]> fs) w, Ok tt)
                 | _, Some (File _) => (w, Raise NotADirectoryError)
                 | _, None => (w, Raise FileNotFoundError)
                 end
             end
         end.

End os.

(** ** The lister *)

Section program.
Context {G : Type} `{!Rng G}.

(** [[]]: a new, empty list object. *)
Definition new_list : M G loc :=
  λ w, (set_heap (w_heap w ++ [[]])%list w, Ok (length (w_heap w))).

(** [x.append(v)]. *)
Definition list_append (x : loc) (v : string) : M G unit :=
  λ w, match w_heap w !! x with
       | Some xs => (set_heap (<[x:=(xs ++ [v])%list]> (w_heap w)) w, Ok tt)
       | None => (w, Raise InvalidReference)
       end.

Definition gather_filenames (directory_path : string) : M G loc :=
  filenames ← os_listdir directory_path;
  abs_filepaths ← new_list;
  for_each filenames
    (λ filename,
       let full_filepath := os_path_join directory_path filename in
       absolute_filepath ← (λ w, (w, Ok (os_path_abspath (w_cwd w) full_filepath)));
       list_append abs_filepaths absolute_filepath);;
  ret abs_filepaths.

(** ** The materializer *)

Definition create_batch_folder
    (list_of_filepaths : list string) (folder_name directory : string)
    : M G unit :=
  let folder_path := os_path_join directory folder_name in
  present ← os_path_exists folder_path;
  (if present : bool then os_rmdir folder_path else ret tt);;
  os_makedirs folder_path;;
  for_each list_of_filepaths (λ filepath, shutil_copy filepath folder_path).

(** [str(n)] for an integer. *)
Definition py_str (n : Z) : string := pretty n.

(** ["Batch " + str(batch_no)]. *)
Definition batch_folder_name (batch_no : Z) : string :=
  "Batch " +:+ py_str batch_no.

Definition create_all_batches
    (batches_dict : dict (list string)) (directory : string) : M G unit :=
  for_each batches_dict
    (λ '(batch_no, files),
       let folder_name := batch_folder_name batch_no in
       create_batch_folder files folder_name directory).

(** ** The command line front end *)

(** What the user typed: for each flag, the value given to it, if any. *)
Record cli : Type := Cli {
  cli_directory : option string;
  cli_batch_size : option string;
  cli_shuffle : option string;
  cli_output_directory : option string;
  cli_seed : option string
}.

(** The parser: the default of each optional flag.  No flag has a [type],
    so a supplied value is stored as the string it was typed as. *)
Record parser : Type := Parser {
  default_batch_size : pyval;
  default_shuffle : pyval;
  default_output_directory : string;
  default_seed : pyval
}.

(** The namespace [parse_args] returns. *)
Record namespace : Type := Namespace {
  args_directory : string;
  args_batch_size : pyval;
  args_shuffle : pyval;
  args_output_directory : string;
  args_seed : pyval
}.

Definition initialize_parser : M G parser :=
  cwd ← os_getcwd;
  ret (Parser (PyInt 100) (PyBool true) cwd PyNone).

(** [parser.parse_args()]: the required flag must be present; an absent
    optional flag takes its default. *)
Definition parse_args (p : parser) (argv : cli) : M G namespace :=
  match cli_directory argv with
  | None => raise (SystemExit 2)
  | Some d =>
      ret (Namespace d
             (from_option PyStr (default_batch_size p) (cli_batch_size argv))
             (from_option PyStr (default_shuffle p) (cli_shuffle argv))
             (default (default_output_directory p) (cli_output_directory argv))
             (from_option PyStr (default_seed p) (cli_seed argv)))
  end.

Definition main (argv : cli) : M G unit :=
  parser ← initialize_parser;
  args ← parse_args parser argv;
  let directory := args_directory args in
  let batch_size := args_batch_size args in
  let shuffle := args_shuffle args in
  let output_directory := args_output_directory args in
  all_image_paths ← gather_filenames directory;
  batches_dict ←
    split_filepaths_into_batches all_image_paths batch_size shuffle PyNone;
  create_all_batches batches_dict output_directory.

(** [main] up to and including the call of the partitioner, to speak of
    the values its local variables [all_image_paths], [batches_dict] and
    [output_directory] hold at that point. *)
Definition main_partition (argv : cli) : M G (loc * dict (list string) * string) :=
  parser ← initialize_parser;
  args ← parse_args parser argv;
  let directory := args_directory args in
  let batch_size := args_batch_size args in
  let shuffle := args_shuffle args in
  let output_directory := args_output_directory args in
  all_image_paths ← gather_filenames directory;
  batches_dict ←
    split_filepaths_into_batches all_image_paths batch_size shuffle PyNone;
  ret (all_image_paths, batches_dict, output_directory).

End program.

(** ** A generator to run the model with *)

Definition lcg_step (s : Z) : Z := (s * 1103515245 + 12345) `mod` 2147483648.

Definition lcg_seed (a : pyval) : Z :=
  match a with
  | PyNone => 0
  | PyBool b => if b then 1 else 0
  | PyInt z => z `mod` 2147483648
  | PyStr s => Z.of_nat (String.length s)
  end.

Definition lcg_randbelow (n : nat) (s : Z) : nat * Z :=
  (Z.to_nat ((lcg_step s `div` 65536) `mod` Z.of_nat n), lcg_step s).
#[global] Instance lcg_rng : Rng Z.
Proof.
  refine {| rng_seed := lcg_seed; randbelow := lcg_randbelow |}.
  intros n s Hn. unfold lcg_randbelow. simpl.
  pose proof (Z.mod_pos_bound (lcg_step s `div` 65536) (Z.of_nat n)). lia.
Defined.

(** ** Sample worlds *)

(** A source directory [/in] with five files and an output directory
    [/out]. *)
Definition sample_fs : gmap string node :=
  list_to_map [("/", Dir); ("/in", Dir); ("/out", Dir);
    ("/in/a", File "A"); ("/in/b", File "B"); ("/in/c", File "C");
    ("/in/d", File "D"); ("/in/e", File "E")].

(** The same with an empty folder already at [/out/Batch 1]. *)
Definition sample_fs_rerun : gmap string node :=
  <["/out/Batch 1":=Dir]> sample_fs.

(** The same with a file left in that folder. *)
Definition sample_fs_leftover : gmap string node :=
  <["/out/Batch 1/old":=File "x"]> sample_fs_rerun.

(** A source directory without entries. *)
Definition sample_fs_empty : gmap string node :=
  list_to_map [("/", Dir); ("/in", Dir); ("/out", Dir)].

(** The same as [sample_fs] with a regular file at [/out/Batch 1]. *)
Definition sample_fs_blocked : gmap string node :=
  <["/out/Batch 1":=File "x"]> sample_fs.


(** A process started in [/] whose generator is in state [g]. *)
Definition sample_world (g : Z) (fs : gmap string node) : world Z :=
  World g [] "/" fs.

(** A process holding one list object of five paths. *)
Definition sample_heap_world (g : Z) : world Z :=
  World g [["/in/a"; "/in/b"; "/in/c"; "/in/d"; "/in/e"]] "/" sample_fs.

(** The command line [-d /in -o /out -S 42]. *)
Definition sample_argv_seed : cli :=
  Cli (Some "/in") None None (Some "/out") (Some "42").

(** ** Derived notions used to state the properties *)

(** The windows of width [b] over [xs], numbered from 1. *)
Definition windows (xs : list string) (b k : Z) : dict (list string) :=
  (λ j, (j, py_slice xs ((j - 1) * b) (j * b))) <$> seqZ 1 k.

(** [ceil(n / b)], the number of windows of width [b] over [n] items. *)
Definition batch_count (n b : Z) : Z := (n + b - 1) `div` b.

(** A name of a directory entry: not empty, without separator, and
    neither [.] nor [..]. *)
Definition entry_name (n : string) : Prop :=
  n ≠ "" ∧ has_sep n = false ∧ n ≠ "." ∧ n ≠ "..".

(** What [os.path.join] puts in front of a relative second argument. *)
Definition join_prefix (a : string) : string :=
  if String.eqb a "" || ends_with_sep a then a else a +:+ "/".

Section derived.
Context {G : Type} `{!Rng G}.

(** The generator state after the optional [random.seed(seed)]. *)
Definition seeded (seed : pyval) (g : G) : G :=
  match seed with PyNone => g | _ => rng_seed seed end.

(** The order of the list, and the generator state, once the optional
    seeding and the optional shuffle are done. *)
Definition arranged (shuffle seed : pyval) (xs : list string) (g : G)
    : list string * G :=
  if truthy shuffle then random_shuffle xs (seeded seed g)
  else (xs, seeded seed g).

(** The world at that point: the list object [l] holds the new order. *)
Definition arranged_world (l : loc) (shuffle seed : pyval)
    (xs : list string) (w : world G) : world G :=
  set_heap (<[l:=(arranged shuffle seed xs (w_rng w)).1]> (w_heap w))
    (set_rng (arranged shuffle seed xs (w_rng w)).2 w).

(** The path of the folder of batch [batch_no] under [directory], the
    [folder_path] of [create_batch_folder]. *)
Definition batch_folder_path (directory : string) (batch_no : Z) : string :=
  os_path_join directory (batch_folder_name batch_no).

(** The file [shutil.copy(f, folder)] writes when [folder] is a directory. *)
Definition batch_target (w : world G) (folder f : string) : string :=
  os_path_join (key_of w folder) (os_path_basename f).

(** The absolute paths of the entries of directory [d], in listing order. *)
Definition listing (w : world G) (d : string) : list string :=
  (λ filename, os_path_abspath (w_cwd w) (os_path_join d filename))
    <$> dir_entries (w_fs w) (key_of w d).

End derived.

(** * Properties *)

(** ** Builtins *)

Lemma py_slice_nonneg {A} (l : list A) (lo hi : Z) :
  0 ≤ lo → lo ≤ hi →
  py_slice l lo hi = take (Z.to_nat (hi - lo)) (drop (Z.to_nat lo) l).
Proof.
  intros Hlo Hhi. unfold py_slice, clamp_index.
  destruct (Z.ltb_spec lo 0), (Z.ltb_spec hi 0); try lia.
  destruct (decide (lo ≤ Z.of_nat (length l))) as [Hin|Hout].
  - rewrite (Z.min_l lo) by lia.
    destruct (decide (hi ≤ Z.of_nat (length l))).
    + by rewrite (Z.min_l hi) by lia.
    + rewrite (Z.min_r hi) by lia.
      rewrite !take_ge; [done| |]; rewrite length_drop; lia.
  - rewrite !Z.min_r by lia.
    rewrite !drop_ge by lia. by rewrite !take_nil.
Qed.

Lemma enumerate_fmap_seqZ {A} (f : Z → A) (m n s : Z) :
  enumerate (f <$> seqZ m n) s = (λ k, (s + (k - m), f k)) <$> seqZ m n.
Proof.
  remember (Z.to_nat n) as c eqn:Hc.
  revert m n s Hc. induction c as [|c IH]; intros m n s Hc.
  - by rewrite seqZ_nil by lia.
  - rewrite seqZ_cons by lia. cbn [fmap list_fmap enumerate].
    rewrite (IH (Z.succ m) (Z.pred n) (s + 1)) by lia.
    f_equal; [f_equal; lia|].
    apply list_fmap_ext. intros _ k _. f_equal. lia.
Qed.

Lemma range_len_ceil (n b : Z) :
  0 ≤ n → 0 < b → range_len 0 n b = (n + b - 1) `div` b.
Proof.
  intros Hn Hb. unfold range_len.
  destruct (Z.ltb_spec 0 b); [|lia]. simpl.
  destruct (Z.ltb_spec 0 n).
  - replace (n + b - 1) with (n - 1 - 0 + 1 * b) by lia.
    rewrite Z.div_add by lia. lia.
  - destruct (Z.ltb_spec b 0); [lia|]. simpl.
    symmetry. apply Z.div_small. lia.
Qed.

Lemma range_len_nonpos_step (n b : Z) : 0 ≤ n → b < 0 → range_len 0 n b = 0.
Proof.
  intros Hn Hb. unfold range_len.
  destruct (Z.ltb_spec 0 b); [lia|]. simpl.
  destruct (Z.ltb_spec b 0), (Z.ltb_spec n 0); simpl; lia.
Qed.

Lemma dict_set_fresh {V} (d : dict V) (k : Z) (v : V) :
  k ∉ d.*1 → dict_set d k v = (d ++ [(k, v)])%list.
Proof.
  induction d as [|[k' v'] d IH]; intros Hk; [done|].
  cbn [dict_set]. rewrite fmap_cons, not_elem_of_cons in Hk.
  destruct Hk as [Hne Hk]. simpl in Hne.
  destruct (decide (k' = k)); [congruence|]. by rewrite IH.
Qed.

Lemma dict_get_app {V} (d1 d2 : dict V) (k : Z) :
  dict_get (d1 ++ d2)%list k
  = match dict_get d1 k with Some v => Some v | None => dict_get d2 k end.
Proof.
  induction d1 as [|[k' v'] d1 IH]; [done|].
  cbn [app dict_get]. by destruct (decide (k' = k)).
Qed.

Lemma dict_get_tabulate {V} (f : Z → V) (k j : Z) :
  dict_get ((λ j, (j, f j)) <$> seqZ 1 k) j
  = if bool_decide (1 ≤ j ≤ k) then Some (f j) else None.
Proof.
  destruct (decide (k ≤ 0)) as [Hk|Hk].
  { rewrite seqZ_nil by lia. rewrite bool_decide_eq_false_2 by lia. done. }
  rewrite <-(Z2Nat.id k) by lia. generalize (Z.to_nat k) as c. clear Hk.
  induction c as [|c IH].
  - rewrite bool_decide_eq_false_2 by lia. done.
  - rewrite seqZ_S, fmap_app, dict_get_app, IH.
    case_bool_decide as H1; case_bool_decide as H2; try lia; try done.
    + simpl. destruct (decide (1 + Z.of_nat c = j)); [|lia].
      by subst.
    + simpl. destruct (decide (1 + Z.of_nat c = j)); [lia|done].
Qed.


Lemma windows_keys xs b k : (windows xs b k).*1 = seqZ 1 k.
Proof.
  unfold windows. rewrite <-list_fmap_compose.
  rewrite <-(list_fmap_id (seqZ 1 k)) at 2. by apply list_fmap_ext.
Qed.

Lemma windows_concat_take xs b (c : nat) :
  0 < b →
  concat (windows xs b (Z.of_nat c)).*2 = take (c * Z.to_nat b) xs.
Proof.
  intros Hb. unfold windows. induction c as [|c IH]; [done|].
  rewrite seqZ_S, !fmap_app, concat_app, IH. simpl.
  rewrite app_nil_r, py_slice_nonneg by lia.
  replace (Z.to_nat ((1 + Z.of_nat c - 1) * b)) with (c * Z.to_nat b)%nat by lia.
  replace (Z.to_nat ((1 + Z.of_nat c) * b - (1 + Z.of_nat c - 1) * b))
    with (Z.to_nat b) by lia.
  rewrite take_take_drop. f_equal. lia.
Qed.

Lemma ceil_div_bounds (n b : Z) :
  0 ≤ n → 0 < b →
  let k := (n + b - 1) `div` b in
  0 ≤ k ∧ n ≤ k * b ∧ k * b < n + b.
Proof.
  intros Hn Hb k.
  pose proof (Z.div_mod (n + b - 1) b ltac:(lia)) as Hdm.
  pose proof (Z.mod_pos_bound (n + b - 1) b Hb) as Hmod.
  fold k in Hdm.
  assert (0 ≤ k) by (apply Z.div_pos; lia).
  nia.
Qed.

Lemma windows_concat xs b :
  0 < b →
  concat (windows xs b ((Z.of_nat (length xs) + b - 1) `div` b)).*2 = xs.
Proof.
  intros Hb.
  destruct (ceil_div_bounds (Z.of_nat (length xs)) b) as (Hk & Hle & _); [lia..|].
  set (k := (Z.of_nat (length xs) + b - 1) `div` b) in *.
  rewrite <-(Z2Nat.id k) by done.
  rewrite windows_concat_take by done. apply take_ge. nia.
Qed.

(** ** The random module *)

Lemma swap_perm {A} (i j : nat) (x : list A) : swap i j x ≡ₚ x.
Proof.
  unfold swap.
  destruct (x !! i) as [a|] eqn:Hi; [|done].
  destruct (x !! j) as [b|] eqn:Hj; [|done].
  by apply Permutation_insert_swap.
Qed.

Section random_props.
Context {G : Type} `{!Rng G} {A : Type}.

Lemma shuffle_from_perm (i : nat) (x : list A) (g : G) :
  (shuffle_from i x g).1 ≡ₚ x.
Proof.
  revert x g. induction i as [|i IH]; intros x g; [done|].
  cbn [shuffle_from]. destruct (randbelow (S i + 1) g) as [j g'].
  rewrite IH. apply swap_perm.
Qed.

Lemma random_shuffle_perm (x : list A) (g : G) : (random_shuffle x g).1 ≡ₚ x.
Proof. apply shuffle_from_perm. Qed.

Lemma random_shuffle_length (x : list A) (g : G) :
  length (random_shuffle x g).1 = length x.
Proof. by rewrite random_shuffle_perm. Qed.

(** The index drawn at step [i] lies inside the part of the list that is
    still to be placed, so the exchange never indexes out of range. *)
Lemma shuffle_step_in_range (i : nat) (x : list A) (g : G) :
  (i < length x)%nat →
  ∃ a b, x !! i = Some a ∧ x !! (randbelow (i + 1) g).1 = Some b
         ∧ swap i (randbelow (i + 1) g).1 x
           = <[(randbelow (i + 1) g).1:=a]> (<[i:=b]> x).
Proof.
  intros Hi.
  pose proof (randbelow_lt (i + 1) g ltac:(lia)) as Hj.
  destruct (lookup_lt_is_Some_2 x i Hi) as [a Ha].
  destruct (lookup_lt_is_Some_2 x (randbelow (i + 1) g).1 ltac:(lia)) as [b Hb].
  exists a, b. unfold swap. by rewrite Ha, Hb.
Qed.

End random_props.

(** ** The partitioner *)

Ltac run_step :=
  unfold mbind, M_bind, mret, M_ret, bind, ret, lift, raise; cbn beta iota.

Lemma bind_ok {G A B} (m : M G A) (k : A → M G B) a (w w' : world G) :
  m w = (w', Ok a) → (m ≫= k) w = k a w'.
Proof. intros Hm. unfold mbind, M_bind, bind. by rewrite Hm. Qed.

Lemma bind_raise {G A B} (m : M G A) (k : A → M G B) e (w w' : world G) :
  m w = (w', Raise e) → (m ≫= k) w = (w', Raise e).
Proof. intros Hm. unfold mbind, M_bind, bind. by rewrite Hm. Qed.

Lemma for_fold_cons_ok {G X S} (body : S → X → M G S) x xs s s' (w w' : world G) :
  body s x w = (w', Ok s') →
  for_fold (x :: xs) body s w = for_fold xs body s' w'.
Proof. intros Hb. cbn [for_fold]. unfold mbind, M_bind, bind. by rewrite Hb. Qed.

Lemma for_each_cons_ok {G X} (body : X → M G unit) x xs (w w' : world G) :
  body x w = (w', Ok tt) →
  for_each (x :: xs) body w = for_each xs body w'.
Proof. intros Hb. cbn [for_each]. unfold mbind, M_bind, bind. by rewrite Hb. Qed.

Lemma for_each_cons_raise {G X} (body : X → M G unit) x xs e (w w' : world G) :
  body x w = (w', Raise e) →
  for_each (x :: xs) body w = (w', Raise e).
Proof. intros Hb. cbn [for_each]. unfold mbind, M_bind, bind. by rewrite Hb. Qed.

Section partitioner_props.
Context {G : Type} `{!Rng G}.


Lemma arranged_perm sh seed xs g : (arranged sh seed xs g).1 ≡ₚ xs.
Proof.
  unfold arranged. destruct (truthy sh); [apply random_shuffle_perm|done].
Qed.

Lemma arranged_world_heap l sh seed xs w :
  w_heap w !! l = Some xs →
  w_heap (arranged_world l sh seed xs w) !! l
  = Some (arranged sh seed xs (w_rng w)).1.
Proof.
  intros Hl. unfold arranged_world. simpl.
  apply list_lookup_insert_eq. by eapply lookup_lt_Some.
Qed.

Lemma arranged_world_fs l sh seed xs w :
  w_fs (arranged_world l sh seed xs w) = w_fs w.
Proof. done. Qed.

Lemma seed_run seed (w : world G) :
  (match seed with PyNone => ret tt | _ => random_seed seed end) w
  = (set_rng (seeded seed (w_rng w)) w, Ok tt).
Proof. destruct seed; try done. by destruct w. Qed.

Lemma shuffle_run l sh xs (w : world G) :
  w_heap w !! l = Some xs →
  (if truthy sh then random_shuffle_in_place l else ret tt) w
  = (set_heap
       (<[l:=(if truthy sh then random_shuffle xs (w_rng w) else (xs, w_rng w)).1]>
          (w_heap w))
       (set_rng
          (if truthy sh then random_shuffle xs (w_rng w) else (xs, w_rng w)).2 w),
     Ok tt).
Proof.
  intros Hl. destruct (truthy sh).
  - unfold random_shuffle_in_place. rewrite Hl.
    by destruct (random_shuffle xs (w_rng w)).
  - simpl. rewrite list_insert_id by done. by destruct w.
Qed.

Lemma arrange_run {B} l sh seed xs (w : world G) (k : M G B) :
  w_heap w !! l = Some xs →
  ((match seed with PyNone => ret tt | _ => random_seed seed end);;
   (if truthy sh then random_shuffle_in_place l else ret tt);; k) w
  = k (arranged_world l sh seed xs w).
Proof.
  intros Hl.
  erewrite bind_ok by apply seed_run.
  erewrite bind_ok by (by apply shuffle_run).
  unfold arranged_world, arranged. simpl. by destruct (truthy sh).
Qed.

Lemma slicing_loop_run l bs b xs (w : world G) r j0 acc :
  w_heap w !! l = Some xs → as_int bs = Ok b →
  (∀ j, j ∈ acc.*1 → j < j0) →
  for_fold (enumerate r j0)
    (λ batches '(j, i),
       hi ← lift (int_add i bs);
       s ← py_getslice l i hi;
       ret (dict_set batches j s))
    acc w
  = (w, Ok (acc ++ ((λ '(j, i), (j, py_slice xs i (i + b))) <$> enumerate r j0))%list).
Proof.
  intros Hl Hb. revert j0 acc. induction r as [|i r IH]; intros j0 acc Hacc.
  - simpl. by rewrite app_nil_r.
  - cbn [enumerate fmap list_fmap].
    erewrite for_fold_cons_ok.
    2:{ run_step. unfold int_add. rewrite Hb. unfold py_getslice.
        rewrite Hl. reflexivity. }
    rewrite dict_set_fresh.
    2:{ intros Hin. specialize (Hacc _ Hin). lia. }
    rewrite IH.
    + by rewrite <-app_assoc.
    + intros j. rewrite fmap_app, elem_of_app. simpl.
      rewrite list_elem_of_singleton. intros [Hj| ->]; [|lia].
      specialize (Hacc _ Hj). lia.
Qed.

(** What the partitioner does with a positive batch size. *)
Lemma split_run l bs sh seed b xs (w : world G) :
  w_heap w !! l = Some xs → as_int bs = Ok b → 0 < b →
  split_filepaths_into_batches l bs sh seed w
  = (arranged_world l sh seed xs w,
     Ok (windows (arranged sh seed xs (w_rng w)).1 b
           ((Z.of_nat (length xs) + b - 1) `div` b))).
Proof.
  intros Hl Hb Hpos. unfold split_filepaths_into_batches.
  pose proof (arranged_world_heap l sh seed xs w Hl) as Hl'.
  rewrite (arrange_run l sh seed xs w _ Hl). run_step.
  unfold py_len. rewrite Hl'.
  unfold range_from_zero, py_range. rewrite Hb.
  destruct (Z.eqb_spec b 0); [lia|].
  rewrite (slicing_loop_run l bs b _ _ _ 1 [] Hl' Hb) by set_solver.
  f_equal. f_equal. simpl.
  rewrite length_Permutation_proper by apply arranged_perm.
  rewrite range_len_ceil by lia.
  rewrite enumerate_fmap_seqZ, <-list_fmap_compose. unfold windows.
  rewrite <-(fmap_add_seqZ 1 0), <-list_fmap_compose.
  apply list_fmap_ext. intros _ j _. simpl. f_equal; [lia|]. f_equal; lia.
Qed.

(** A batch size that is not an integer: [range] raises, after the list
    was put in order. *)
Lemma split_run_not_int l bs sh seed e xs (w : world G) :
  w_heap w !! l = Some xs → as_int bs = Raise e →
  split_filepaths_into_batches l bs sh seed w
  = (arranged_world l sh seed xs w, Raise e).
Proof.
  intros Hl Hb. unfold split_filepaths_into_batches.
  pose proof (arranged_world_heap l sh seed xs w Hl) as Hl'.
  rewrite (arrange_run l sh seed xs w _ Hl). run_step.
  unfold py_len. rewrite Hl'. unfold range_from_zero. by rewrite Hb.
Qed.

(** A batch size of zero: [range] raises [ValueError]. *)
Lemma split_run_zero l bs sh seed xs (w : world G) :
  w_heap w !! l = Some xs → as_int bs = Ok 0 →
  split_filepaths_into_batches l bs sh seed w
  = (arranged_world l sh seed xs w, Raise ValueError).
Proof.
  intros Hl Hb. unfold split_filepaths_into_batches.
  pose proof (arranged_world_heap l sh seed xs w Hl) as Hl'.
  rewrite (arrange_run l sh seed xs w _ Hl). run_step.
  unfold py_len. rewrite Hl'. unfold range_from_zero. by rewrite Hb.
Qed.

(** A negative batch size: the range is empty and so is the result. *)
Lemma split_run_negative l bs sh seed b xs (w : world G) :
  w_heap w !! l = Some xs → as_int bs = Ok b → b < 0 →
  split_filepaths_into_batches l bs sh seed w
  = (arranged_world l sh seed xs w, Ok []).
Proof.
  intros Hl Hb Hneg. unfold split_filepaths_into_batches.
  pose proof (arranged_world_heap l sh seed xs w Hl) as Hl'.
  rewrite (arrange_run l sh seed xs w _ Hl). run_step.
  unfold py_len. rewrite Hl'. unfold range_from_zero, py_range. rewrite Hb.
  destruct (Z.eqb_spec b 0); [lia|].
  rewrite range_len_nonpos_step by lia. done.
Qed.

End partitioner_props.

(** ** Windows of a list *)

Lemma windows_concat_same_length (xs ys : list string) b :
  0 < b → length ys = length xs →
  concat (windows ys b ((Z.of_nat (length xs) + b - 1) `div` b)).*2 = ys.
Proof. intros Hb <-. by apply windows_concat. Qed.


Lemma batch_count_ceil (n b : Z) :
  0 ≤ n → 0 < b →
  0 ≤ batch_count n b
  ∧ n ≤ batch_count n b * b
  ∧ batch_count n b * b < n + b.
Proof. apply ceil_div_bounds. Qed.

Lemma batch_count_zero (b : Z) : 0 < b → batch_count 0 b = 0.
Proof. intros Hb. unfold batch_count. apply Z.div_small. lia. Qed.

Lemma windows_get xs b k j :
  dict_get (windows xs b k) j
  = if bool_decide (1 ≤ j ≤ k)
    then Some (py_slice xs ((j - 1) * b) (j * b)) else None.
Proof.
  unfold windows.
  apply (dict_get_tabulate (λ j, py_slice xs ((j - 1) * b) (j * b))).
Qed.

Lemma window_length (xs : list string) b j :
  0 < b → 1 ≤ j →
  Z.of_nat (length (py_slice xs ((j - 1) * b) (j * b)))
  = Z.max 0 (Z.min b (Z.of_nat (length xs) - (j - 1) * b)).
Proof.
  intros Hb Hj. rewrite py_slice_nonneg by nia.
  rewrite length_take, length_drop. nia.
Qed.

Lemma window_elem (xs : list string) b j p :
  0 < b → 1 ≤ j →
  p ∈ py_slice xs ((j - 1) * b) (j * b) →
  ∃ i : nat, (j - 1) * b ≤ Z.of_nat i < j * b ∧ xs !! i = Some p.
Proof.
  intros Hb Hj. rewrite py_slice_nonneg by nia.
  intros [i Hi]%list_elem_of_lookup.
  apply lookup_take_Some in Hi as [Hi Hlt]. rewrite lookup_drop in Hi.
  exists (Z.to_nat ((j - 1) * b) + i)%nat. split; [nia|done].
Qed.

(** Position [i] of the list lies in exactly one window, and is found
    there. *)
Lemma window_of_position (xs : list string) b (i : nat) p :
  0 < b → xs !! i = Some p →
  ∃ j, 1 ≤ j ∧ (j - 1) * b ≤ Z.of_nat i < j * b
       ∧ py_slice xs ((j - 1) * b) (j * b) !! (i - Z.to_nat ((j - 1) * b))%nat
         = Some p
       ∧ ∀ j', (j' - 1) * b ≤ Z.of_nat i < j' * b → j' = j.
Proof.
  intros Hb Hi. exists (Z.of_nat i `div` b + 1).
  pose proof (Z.div_mod (Z.of_nat i) b ltac:(lia)) as Hdm.
  pose proof (Z.mod_pos_bound (Z.of_nat i) b Hb) as Hmod.
  assert (0 ≤ Z.of_nat i `div` b) by (apply Z.div_pos; lia).
  split_and!; try nia.
  rewrite py_slice_nonneg by nia.
  rewrite lookup_take_lt by nia. rewrite lookup_drop, <-Hi. f_equal. nia.
Qed.

Lemma windows_disjoint (xs : list string) b j1 j2 p :
  0 < b → 1 ≤ j1 → 1 ≤ j2 → j1 ≠ j2 → NoDup xs →
  p ∈ py_slice xs ((j1 - 1) * b) (j1 * b) →
  p ∉ py_slice xs ((j2 - 1) * b) (j2 * b).
Proof.
  intros Hb H1 H2 Hne Hnd Hp1 Hp2.
  apply window_elem in Hp1 as (i1 & Hi1 & Hx1); [|done..].
  apply window_elem in Hp2 as (i2 & Hi2 & Hx2); [|done..].
  assert (i1 = i2) by (by eapply NoDup_lookup). nia.
Qed.

(** ** Claims about the partitioner *)

Section partitioner_claims.
Context {G : Type} `{!Rng G}.

(** The world the partitioner leaves behind, whatever the batch size. *)
Lemma split_world l bs sh seed xs (w : world G) :
  w_heap w !! l = Some xs →
  (split_filepaths_into_batches l bs sh seed w).1
  = arranged_world l sh seed xs w.
Proof.
  intros Hl. destruct (as_int bs) as [b|e] eqn:Hb.
  - destruct (Z.lt_trichotomy b 0) as [Hneg|[->|Hpos]].
    + by erewrite split_run_negative.
    + by erewrite split_run_zero.
    + by erewrite split_run.
  - by erewrite split_run_not_int.
Qed.

(** C1: for a positive batch size the partitioner returns a map whose keys
    are exactly 1..k for k = ceil(N / batch_size); its values, concatenated
    in key order, are the sequence in the order the optional shuffle left
    it, a permutation of the input, so nothing is lost or duplicated; batch
    j is the j-th window of that sequence; every batch before the last has
    batch_size members and the last has N - batch_size*(k-1), which lies in
    1..batch_size; every position of the sequence falls in exactly one
    batch, and batches of a duplicate-free input share no path. *)
Theorem split_partitions_input
    (l : loc) (bs sh seed : pyval) (b : Z) (paths : list string) (w : world G) :
  w_heap w !! l = Some paths → as_int bs = Ok b → 0 < b →
  ∃ (batches : dict (list string)) (ordered : list string) (w' : world G),
    split_filepaths_into_batches l bs sh seed w = (w', Ok batches)
    ∧ w_heap w' !! l = Some ordered
    ∧ ordered ≡ₚ paths
    ∧ (truthy sh = false → ordered = paths)
    ∧ batches.*1 = seqZ 1 (batch_count (Z.of_nat (length paths)) b)
    ∧ Z.of_nat (length paths) ≤ batch_count (Z.of_nat (length paths)) b * b
    ∧ batch_count (Z.of_nat (length paths)) b * b < Z.of_nat (length paths) + b
    ∧ concat batches.*2 = ordered
    ∧ (∀ p, p ∈ concat batches.*2 ↔ p ∈ paths)
    ∧ concat batches.*2 ≡ₚ paths
    ∧ (∀ j, 1 ≤ j ≤ batch_count (Z.of_nat (length paths)) b →
         dict_get batches j = Some (py_slice ordered ((j - 1) * b) (j * b)))
    ∧ (∀ j v, dict_get batches j = Some v →
         j < batch_count (Z.of_nat (length paths)) b →
         Z.of_nat (length v) = b)
    ∧ (∀ v, dict_get batches (batch_count (Z.of_nat (length paths)) b) = Some v →
         Z.of_nat (length v)
         = Z.of_nat (length paths)
           - b * (batch_count (Z.of_nat (length paths)) b - 1)
         ∧ 1 ≤ Z.of_nat (length v) ≤ b)
    ∧ (∀ (i : nat) p, ordered !! i = Some p →
         ∃ j v, dict_get batches j = Some v
                ∧ v !! (i - Z.to_nat ((j - 1) * b))%nat = Some p
                ∧ ∀ j', (j' - 1) * b ≤ Z.of_nat i < j' * b → j' = j)
    ∧ (NoDup paths → ∀ j1 j2 v1 v2, j1 ≠ j2 →
         dict_get batches j1 = Some v1 → dict_get batches j2 = Some v2 →
         ∀ p, p ∈ v1 → p ∉ v2).
Proof.
  intros Hl Hb Hpos.
  set (N := Z.of_nat (length paths)). set (k := batch_count N b).
  set (ordered := (arranged sh seed paths (w_rng w)).1).
  assert (ordered ≡ₚ paths) as Hperm by apply arranged_perm.
  assert (length ordered = length paths) as Hlen by by rewrite Hperm.
  destruct (batch_count_ceil N b) as (Hk0 & Hkle & Hklt); [lia..|].
  fold k in Hk0, Hklt, Hkle.
  assert (concat (windows ordered b k).*2 = ordered) as Hcat.
  { unfold k, batch_count, N. rewrite <-Hlen. by apply windows_concat. }
  exists (windows ordered b k), ordered, (arranged_world l sh seed paths w).
  split_and!.
  - by apply split_run.
  - by apply arranged_world_heap.
  - done.
  - intros Hsh. unfold ordered, arranged. by rewrite Hsh.
  - apply windows_keys.
  - done.
  - done.
  - done.
  - intros p. by rewrite Hcat, Hperm.
  - by rewrite Hcat.
  - intros j Hj. rewrite windows_get. by rewrite bool_decide_eq_true_2.
  - intros j v. rewrite windows_get. case_bool_decide as Hj; [|done].
    intros [= <-] Hlt. rewrite window_length, Hlen by lia. fold N.
    assert (j * b ≤ (k - 1) * b) by nia. lia.
  - intros v. rewrite windows_get. case_bool_decide as Hj; [|done].
    intros [= <-]. rewrite window_length, Hlen by lia. fold N.
    assert (b ≤ k * b) by nia. lia.
  - intros i p Hi.
    destruct (window_of_position ordered b i p Hpos Hi)
      as (j & Hj1 & Hrange & Hfound & Huniq).
    exists j, (py_slice ordered ((j - 1) * b) (j * b)).
    split_and!; [|done..]. rewrite windows_get.
    apply lookup_lt_Some in Hi.
    rewrite bool_decide_eq_true_2; [done|]. split; [done|].
    assert (Z.of_nat i < N) by (unfold N; lia). nia.
  - intros Hnd j1 j2 v1 v2 Hne. rewrite !windows_get.
    case_bool_decide; [|done]. case_bool_decide; [|done].
    intros [= <-] [= <-] p. apply windows_disjoint; try lia; try done.
    by rewrite Hperm.
Qed.

(** C3: with shuffling enabled and a seed other than None, two runs of the
    partitioner on the same input sequence and the same positive batch size
    return the same batch collection, whatever the state of the generator
    and of the rest of the world at the start of each run: the same batch
    numbers with the same members in the same order. *)
Theorem split_seeded_reproducible
    (l1 l2 : loc) (bs sh seed : pyval) (b : Z) (paths : list string)
    (w1 w2 : world G) :
  w_heap w1 !! l1 = Some paths → w_heap w2 !! l2 = Some paths →
  as_int bs = Ok b → 0 < b → truthy sh = true → seed ≠ PyNone →
  ∃ batches : dict (list string),
    (split_filepaths_into_batches l1 bs sh seed w1).2 = Ok batches
    ∧ (split_filepaths_into_batches l2 bs sh seed w2).2 = Ok batches
    ∧ w_heap (split_filepaths_into_batches l1 bs sh seed w1).1 !! l1
      = w_heap (split_filepaths_into_batches l2 bs sh seed w2).1 !! l2
    ∧ w_rng (split_filepaths_into_batches l1 bs sh seed w1).1
      = w_rng (split_filepaths_into_batches l2 bs sh seed w2).1.
Proof.
  intros Hl1 Hl2 Hb Hpos Hsh Hseed.
  assert (∀ g : G, seeded seed g = rng_seed seed) as Hseeded.
  { intros g. by destruct seed. }
  assert (arranged sh seed paths (w_rng w1) = arranged sh seed paths (w_rng w2))
    as Harr.
  { unfold arranged. by rewrite !Hseeded. }
  rewrite (split_run l1 bs sh seed b paths w1), (split_run l2 bs sh seed b paths w2)
    by done.
  eexists. split_and!; [done|by rewrite Harr|..]; cbn [fst snd].
  - rewrite !arranged_world_heap by done. by rewrite Harr.
  - unfold arranged_world. simpl. by rewrite Harr.
Qed.

(** C4: with shuffling disabled and a positive batch size, batch j, for
    j = 1..k, is the slice of the input from index (j-1)*batch_size to
    j*batch_size; the keys are 1..k, the batches in key order make up the
    input in its original order, and the list object is not reordered. *)
Theorem split_unshuffled_slices
    (l : loc) (bs sh seed : pyval) (b : Z) (paths : list string) (w : world G) :
  w_heap w !! l = Some paths → as_int bs = Ok b → 0 < b → truthy sh = false →
  ∃ batches : dict (list string),
    (split_filepaths_into_batches l bs sh seed w).2 = Ok batches
    ∧ batches.*1 = seqZ 1 (batch_count (Z.of_nat (length paths)) b)
    ∧ (∀ j, 1 ≤ j ≤ batch_count (Z.of_nat (length paths)) b →
         dict_get batches j = Some (py_slice paths ((j - 1) * b) (j * b)))
    ∧ concat batches.*2 = paths
    ∧ w_heap (split_filepaths_into_batches l bs sh seed w).1 = w_heap w.
Proof.
  intros Hl Hb Hpos Hsh.
  rewrite (split_run l bs sh seed b paths w) by done. cbn [fst snd].
  assert ((arranged sh seed paths (w_rng w)).1 = paths) as ->.
  { unfold arranged. by rewrite Hsh. }
  eexists. split_and!; [done|apply windows_keys|..].
  - intros j Hj. rewrite windows_get. by rewrite bool_decide_eq_true_2.
  - by apply windows_concat.
  - unfold arranged_world, arranged. rewrite Hsh. simpl.
    by apply list_insert_id.
Qed.


End partitioner_claims.

(** ** Paths *)

Lemma cut_at_last_sep_length p :
  (String.length (cut_at_last_sep p).1 + String.length (cut_at_last_sep p).2
   = String.length p)%nat.
Proof.
  induction p as [|c p IH]; [done|]. cbn [cut_at_last_sep].
  destruct (has_sep p).
  - destruct (cut_at_last_sep p) as [h t]. simpl in *. lia.
  - destruct (is_sep c); simpl; lia.
Qed.

Lemma rstrip_sep_length s : (String.length (rstrip_sep s) ≤ String.length s)%nat.
Proof.
  induction s as [|c s IH]; [done|]. cbn [rstrip_sep].
  destruct (rstrip_sep s); [destruct (is_sep c)|]; simpl in *; lia.
Qed.

(** The head and the tail of a path are not longer than the path. *)
Lemma os_path_split_length p :
  (String.length (os_path_split p).1 + String.length (os_path_split p).2
   ≤ String.length p)%nat.
Proof.
  unfold os_path_split.
  pose proof (cut_at_last_sep_length p) as Hcut.
  destruct (cut_at_last_sep p) as [h t]. simpl in Hcut.
  pose proof (rstrip_sep_length h) as Hstrip.
  destruct (rstrip_sep h); simpl in *; lia.
Qed.

Lemma os_path_dirname_ne p : os_path_basename p ≠ "" → os_path_dirname p ≠ p.
Proof.
  unfold os_path_basename, os_path_dirname. intros Ht Heq.
  pose proof (os_path_split_length p) as Hlen. rewrite Heq in Hlen.
  destruct (os_path_split p).2; [done|]. simpl in Hlen. lia.
Qed.

Lemma cut_at_last_sep_tail_no_sep p : has_sep (cut_at_last_sep p).2 = false.
Proof.
  induction p as [|c p IH]; [done|]. cbn [cut_at_last_sep].
  destruct (has_sep p) eqn:Hp.
  - by destruct (cut_at_last_sep p).
  - destruct (is_sep c) eqn:Hc; simpl; [done|]. by rewrite Hc, Hp.
Qed.

(** A base name holds no separator. *)
Lemma os_path_basename_no_sep p : has_sep (os_path_basename p) = false.
Proof.
  unfold os_path_basename, os_path_split.
  pose proof (cut_at_last_sep_tail_no_sep p) as Hcut.
  destruct (cut_at_last_sep p) as [h t]. by destruct (rstrip_sep h).
Qed.

Lemma starts_with_sep_has_sep p : has_sep p = false → starts_with_sep p = false.
Proof. destruct p as [|c p]; [done|]. simpl. by destruct (is_sep c). Qed.

Lemma starts_with_sep_app a s :
  a ≠ "" → starts_with_sep (a +:+ s) = starts_with_sep a.
Proof. by destruct a. Qed.

Lemma string_app_cons x a b : String x a +:+ b = String x (a +:+ b).
Proof. reflexivity. Qed.

Lemma string_app_assoc a b c : (a +:+ b) +:+ c = a +:+ b +:+ c.
Proof.
  induction a as [|x a IH]; [done|]. rewrite !string_app_cons. by f_equal.
Qed.

Lemma string_app_ne a s : s ≠ "" → a +:+ s ≠ a.
Proof.
  intros Hs Heq. apply Hs. apply (String.app_inj a).
  rewrite Heq. clear. induction a as [|x a IH]; [done|].
  rewrite string_app_cons. by f_equal.
Qed.


Lemma os_path_join_relative a p :
  starts_with_sep p = false → os_path_join a p = join_prefix a +:+ p.
Proof.
  intros Hp. unfold os_path_join, join_prefix. rewrite Hp.
  destruct (_ || _); [done|]. by rewrite string_app_assoc.
Qed.

Lemma os_path_join_absolute a p : starts_with_sep p = true → os_path_join a p = p.
Proof. intros Hp. unfold os_path_join. by rewrite Hp. Qed.

(** Joining a non-empty relative name to a path gives another path. *)
Lemma os_path_join_ne a p :
  p ≠ "" → has_sep p = false → os_path_join a p ≠ a.
Proof.
  intros Hp Hsep. apply starts_with_sep_has_sep in Hsep.
  rewrite (os_path_join_relative a p) by done.
  unfold join_prefix. destruct (_ || _); [by apply string_app_ne|].
  rewrite string_app_assoc. by apply string_app_ne.
Qed.

Lemma batch_folder_name_inj j1 j2 :
  batch_folder_name j1 = batch_folder_name j2 → j1 = j2.
Proof.
  unfold batch_folder_name, py_str. intros Heq.
  apply String.app_inj in Heq. by apply pretty_Z_inj in Heq.
Qed.

Lemma batch_folder_path_inj directory j1 j2 :
  os_path_join directory (batch_folder_name j1)
  = os_path_join directory (batch_folder_name j2) →
  j1 = j2.
Proof.
  unfold os_path_join. cbn [batch_folder_name String.app starts_with_sep].
  change (is_sep "B") with false. cbn iota.
  destruct (_ || _); intros Heq; apply String.app_inj in Heq.
  - injection Heq as Heq. by apply pretty_Z_inj in Heq.
  - injection Heq as Heq. by apply pretty_Z_inj in Heq.
Qed.

(** ** The file system *)

Lemma mkdir_at_only_adds_dir p (fs : gmap string node) q c :
  (mkdir_at p fs).1 !! q = Some (File c) → fs !! q = Some (File c).
Proof.
  unfold mkdir_at. destruct (fs !! p) eqn:Hp; [done|].
  destruct (fs !! os_path_dirname p) as [[]|]; try done.
  simpl. rewrite lookup_insert. by case_decide.
Qed.

(** [os.makedirs] creates directories only: a regular file found
    afterwards was there before, with the same content. *)
Lemma makedirs_at_only_adds_dir fuel p (fs : gmap string node) q c :
  (makedirs_at fuel p fs).1 !! q = Some (File c) → fs !! q = Some (File c).
Proof.
  revert p fs. induction fuel as [|fuel IH]; intros p fs.
  - cbn [makedirs_at]. destruct (os_path_split p) as [h t].
    destruct (if String.eqb t "" then os_path_split h else (h, t)).
    apply mkdir_at_only_adds_dir.
  - cbn [makedirs_at]. destruct (os_path_split p) as [h t].
    destruct (if String.eqb t "" then os_path_split h else (h, t)) as [h' t'].
    destruct (_ && _); [|apply mkdir_at_only_adds_dir].
    specialize (IH h' fs).
    destruct (makedirs_at fuel h' fs) as [fs1 [[]|e]]; simpl in IH.
    + destruct (String.eqb t' "."); [done|].
      intros Hq%mkdir_at_only_adds_dir. by apply IH.
    + destruct e; try done; destruct (String.eqb t' "."); try done;
        intros Hq%mkdir_at_only_adds_dir; by apply IH.
Qed.

(** The recursion of [os.makedirs] is on a strictly shorter path, so any
    fuel that covers the length of the path gives the same outcome. *)
Lemma makedirs_at_fuel fuel1 fuel2 name (fs : gmap string node) :
  (String.length name ≤ fuel1)%nat → (String.length name ≤ fuel2)%nat →
  makedirs_at fuel1 name fs = makedirs_at fuel2 name fs.
Proof.
  revert fuel2 name.
  induction fuel1 as [|fuel1 IH]; intros fuel2 name Hlen1 Hlen2.
  { destruct name; [|simpl in Hlen1; lia]. by destruct fuel2. }
  destruct fuel2 as [|fuel2].
  { destruct name; [|simpl in Hlen2; lia]. done. }
  cbn [makedirs_at].
  pose proof (os_path_split_length name) as Hsplit.
  destruct (os_path_split name) as [h t]. simpl in Hsplit.
  assert (∃ h' t', (if String.eqb t "" then os_path_split h else (h, t)) = (h', t')
                   ∧ (t' ≠ "" → (String.length h' < String.length name)%nat))
    as (h' & t' & -> & Hshort).
  { destruct (String.eqb_spec t "") as [->|Hne].
    - pose proof (os_path_split_length h) as Hsplit'.
      destruct (os_path_split h) as [h2 t2]. simpl in Hsplit'.
      exists h2, t2. split; [done|]. intros Ht2.
      destruct t2; [done|]. simpl in *. lia.
    - exists h, t. split; [done|]. intros _.
      destruct t; [done|]. simpl in *. lia. }
  destruct (negb (String.eqb h' "")) eqn:Hh; [|done].
  destruct (String.eqb_spec t' "") as [->|Ht]; [done|]. cbn [negb andb].
  destruct (negb (bool_decide (is_Some (fs !! h')))); [|done].
  specialize (Hshort Ht). by rewrite (IH fuel2 h') by lia.
Qed.

(** When the parent directory exists, [os.makedirs] makes the leaf and
    nothing else. *)
Lemma makedirs_at_parent_exists fuel p (fs : gmap string node) :
  fs !! p = None → os_path_basename p ≠ "" →
  fs !! os_path_dirname p = Some Dir →
  makedirs_at fuel p fs = (<[p:=Dir]> fs, Ok tt).
Proof.
  unfold os_path_basename, os_path_dirname. intros Hp Ht Hh.
  assert (mkdir_at p fs = (<[p:=Dir]> fs, Ok tt)) as Hmk.
  { unfold mkdir_at, os_path_dirname. by rewrite Hp, Hh. }
  destruct fuel; cbn [makedirs_at];
    destruct (os_path_split p) as [h t]; simpl in *;
    destruct (String.eqb_spec t ""); try done.
  rewrite Hh. rewrite (bool_decide_eq_true_2 (is_Some (Some Dir))) by eauto.
  by rewrite andb_false_r.
Qed.

Section os_props.
Context {G : Type} `{!Rng G}.


Lemma shutil_copy_run (w : world G) src dst c :
  w_fs w !! key_of w dst = Some Dir →
  w_fs w !! key_of w src = Some (File c) →
  key_of w src ≠ batch_target w dst src →
  w_fs w !! batch_target w dst src ≠ Some Dir →
  shutil_copy src dst w
  = (set_fs (<[batch_target w dst src:=File c]> (w_fs w)) w, Ok tt).
Proof.
  intros Hdst Hsrc Hne Hfree.
  unfold shutil_copy, copy_target. rewrite Hdst. fold (batch_target w dst src).
  rewrite bool_decide_eq_false_2 by (intros [? _]; done).
  rewrite Hsrc.
  destruct (w_fs w !! batch_target w dst src) as [[]|]; done.
Qed.

(** The copy loop of [create_batch_folder] into a directory that exists. *)
Lemma copy_loop_run (files : list string) (folder : string) (w : world G) :
  w_fs w !! key_of w folder = Some Dir →
  (∀ f, f ∈ files → ∃ c, w_fs w !! key_of w f = Some (File c)) →
  (∀ f, f ∈ files → w_fs w !! batch_target w folder f ≠ Some Dir) →
  (∀ f f', f ∈ files → f' ∈ files → key_of w f ≠ batch_target w folder f') →
  ∃ fs' : gmap string node,
    for_each files (λ filepath, shutil_copy filepath folder) w
    = (set_fs fs' w, Ok tt)
    ∧ (∀ q, q ∉ batch_target w folder <$> files → fs' !! q = w_fs w !! q)
    ∧ (∀ f, f ∈ files → ∃ c, fs' !! batch_target w folder f = Some (File c))
    ∧ (NoDup (batch_target w folder <$> files) →
       ∀ f c, f ∈ files → w_fs w !! key_of w f = Some (File c) →
              fs' !! batch_target w folder f = Some (File c)).
Proof.
  revert w. induction files as [|f files IH]; intros w Hdir Hsrc Hfree Hne.
  - exists (w_fs w). split_and!; [by destruct w|done|set_solver..].
  - destruct (Hsrc f) as [c Hc]; [set_solver|].
    set (t := batch_target w folder f).
    set (w1 := set_fs (<[t:=File c]> (w_fs w)) w).
    assert (t ≠ key_of w folder) as Htdir.
    { intros Heq. apply (Hfree f); [set_solver|]. fold t. by rewrite Heq. }
    assert (∀ f', f' ∈ f :: files → key_of w f' ≠ t) as Hsrc_t.
    { intros f' Hf'. apply Hne; [done|by left]. }
    destruct (IH w1) as (fs' & Hrun & Hframe & Hfile & Hcontent).
    + simpl. by rewrite lookup_insert_ne.
    + intros f' Hf'. destruct (Hsrc f') as [c' Hc']; [set_solver|].
      exists c'. simpl. rewrite lookup_insert_ne; [done|].
      intros Heq. apply (Hsrc_t f'); [set_solver|done].
    + intros f' Hf'. simpl. change (batch_target w1 folder f')
        with (batch_target w folder f').
      rewrite lookup_insert. case_decide; [done|]. apply Hfree. set_solver.
    + intros f1 f2 Hf1 Hf2. apply Hne; set_solver.
    + exists fs'. change (batch_target w1 folder) with (batch_target w folder)
        in *. split_and!.
      * erewrite for_each_cons_ok; [exact Hrun|].
        apply shutil_copy_run; try done.
        -- apply Hsrc_t. set_solver.
        -- apply Hfree. set_solver.
      * intros q Hq. rewrite fmap_cons, not_elem_of_cons in Hq.
        destruct Hq as [Hqt Hq]. rewrite Hframe by done. simpl.
        by rewrite lookup_insert_ne.
      * intros f' [->|Hf']%elem_of_cons; [|by apply Hfile].
        destruct (decide (t ∈ batch_target w folder <$> files)) as [Hin|Hout].
        -- apply list_elem_of_fmap in Hin as (f2 & Heq & Hf2).
           fold t. rewrite Heq. by apply Hfile.
        -- exists c. fold t. rewrite Hframe by done. simpl.
           by rewrite lookup_insert_eq.
      * rewrite fmap_cons, NoDup_cons. intros [Hout Hnd] f' c' Hf' Hc'.
        apply elem_of_cons in Hf' as [->|Hf'].
        -- fold t. rewrite Hframe by done. simpl. rewrite lookup_insert_eq.
           congruence.
        -- apply Hcontent; [done..|]. simpl. rewrite lookup_insert_ne; [done|].
           intros Heq. apply (Hsrc_t f'); [set_solver|done].
Qed.

End os_props.

(** ** The materializer *)

Section materializer_props.
Context {G : Type} `{!Rng G}.

(** A destination that is a directory with entries: [os.rmdir] raises and
    nothing is created or copied. *)
Lemma create_batch_folder_not_empty files name directory (w : world G) :
  w_fs w !! key_of w (os_path_join directory name) = Some Dir →
  dir_entries (w_fs w) (key_of w (os_path_join directory name)) ≠ [] →
  create_batch_folder files name directory w = (w, Raise DirectoryNotEmpty).
Proof.
  intros Hdir Hent. unfold create_batch_folder.
  erewrite bind_ok by reflexivity.
  rewrite Hdir, (bool_decide_eq_true_2 (is_Some (Some Dir))) by eauto.
  apply bind_raise. unfold os_rmdir. rewrite Hdir.
  by destruct (dir_entries _ _).
Qed.

(** A destination that is an empty directory is removed first: the call
    goes on exactly as it would from the file system without it. *)
Lemma create_batch_folder_removes_empty files name directory (w : world G) :
  w_fs w !! key_of w (os_path_join directory name) = Some Dir →
  dir_entries (w_fs w) (key_of w (os_path_join directory name)) = [] →
  create_batch_folder files name directory w
  = create_batch_folder files name directory
      (set_fs (delete (key_of w (os_path_join directory name)) (w_fs w)) w).
Proof.
  intros Hdir Hent. unfold create_batch_folder.
  erewrite bind_ok by reflexivity.
  rewrite Hdir, (bool_decide_eq_true_2 (is_Some (Some Dir))) by eauto.
  erewrite bind_ok by (unfold os_rmdir; rewrite Hdir, Hent; reflexivity).
  symmetry. erewrite bind_ok by reflexivity.
  change (key_of (set_fs ?fs w) ?p) with (key_of w p). cbn [w_fs set_fs].
  rewrite lookup_delete_eq, bool_decide_eq_false_2 by (by intros [? ?]).
  by erewrite bind_ok by reflexivity.
Qed.

(** A destination that does not exist, under a parent that does: the
    folder is made and every member is copied into it. *)
Lemma create_batch_folder_fresh files name directory (w : world G) :
  let folder := os_path_join directory name in
  w_fs w !! key_of w folder = None →
  os_path_basename (key_of w folder) ≠ "" →
  w_fs w !! os_path_dirname (key_of w folder) = Some Dir →
  (∀ f, f ∈ files → os_path_basename f ≠ "") →
  (∀ f, f ∈ files → ∃ c, w_fs w !! key_of w f = Some (File c)) →
  (∀ f, f ∈ files → w_fs w !! batch_target w folder f = None) →
  (∀ f f', f ∈ files → f' ∈ files → key_of w f ≠ batch_target w folder f') →
  ∃ fs' : gmap string node,
    create_batch_folder files name directory w = (set_fs fs' w, Ok tt)
    ∧ fs' !! key_of w folder = Some Dir
    ∧ (∀ q, q ≠ key_of w folder → q ∉ batch_target w folder <$> files →
            fs' !! q = w_fs w !! q)
    ∧ (∀ f, f ∈ files → ∃ c, fs' !! batch_target w folder f = Some (File c))
    ∧ (NoDup (batch_target w folder <$> files) →
       ∀ f c, f ∈ files → w_fs w !! key_of w f = Some (File c) →
              fs' !! batch_target w folder f = Some (File c)).
Proof.
  intros folder Hnone Hbase Hparent Hnamed Hsrc Hfree Hne.
  set (k := key_of w folder) in *.
  set (w1 := set_fs (<[k:=Dir]> (w_fs w)) w).
  assert (∀ f, f ∈ files → key_of w f ≠ k) as Hsrc_k.
  { intros f Hf Heq. destruct (Hsrc f) as [c Hc]; [done|]. congruence. }
  assert (∀ f, f ∈ files → batch_target w folder f ≠ k) as Htgt_k.
  { intros f Hf. apply os_path_join_ne; [by apply Hnamed|].
    apply os_path_basename_no_sep. }
  destruct (copy_loop_run files folder w1) as (fs' & Hrun & Hframe & Hfile & Hcontent).
  - simpl. apply lookup_insert_eq.
  - intros f Hf. destruct (Hsrc f) as [c Hc]; [done|]. exists c. simpl.
    rewrite lookup_insert_ne; [done|]. apply not_eq_sym. by apply Hsrc_k.
  - intros f Hf. simpl. change (batch_target w1) with (batch_target w).
    rewrite lookup_insert_ne by (apply not_eq_sym; by apply Htgt_k).
    by rewrite Hfree.
  - done.
  - exists fs'. change (batch_target w1) with (batch_target w) in *.
    change (key_of w1) with (key_of w) in *. split_and!.
    + unfold create_batch_folder. fold folder.
      erewrite bind_ok by reflexivity. fold k.
      rewrite Hnone, bool_decide_eq_false_2 by (by intros [? ?]).
      erewrite bind_ok by reflexivity.
      erewrite bind_ok; [exact Hrun|].
      unfold os_makedirs. fold k.
      by rewrite makedirs_at_parent_exists.
    + destruct (decide (k ∈ batch_target w folder <$> files)) as [Hin|Hout].
      * apply list_elem_of_fmap in Hin as (f2 & Heq & Hf2).
        by destruct (Htgt_k f2).
      * rewrite Hframe by done. simpl. apply lookup_insert_eq.
    + intros q Hq Hout. rewrite Hframe by done. simpl.
      by rewrite lookup_insert_ne.
    + done.
    + intros Hnd f c Hf Hc. apply Hcontent; [done..|]. simpl.
      rewrite lookup_insert_ne; [done|]. apply not_eq_sym. by apply Hsrc_k.
Qed.

End materializer_props.

(** ** The lister and the front end *)

Section front_end_props.
Context {G : Type} `{!Rng G}.

(** [main] is [main_partition] followed by the materializer. *)
Lemma main_eq (argv : cli) (w : world G) :
  main argv w
  = ('(_, batches_dict, output_directory) ← main_partition argv;
     create_all_batches batches_dict output_directory) w.
Proof.
  unfold main, main_partition, mbind, M_bind, bind.
  destruct (initialize_parser w) as [w1 [p|e]]; [|done].
  destruct (parse_args p argv w1) as [w2 [args|e]]; [|done].
  destruct (gather_filenames (args_directory args) w2) as [w3 [l|e]]; [|done].
  by destruct (split_filepaths_into_batches _ _ _ _ w3) as [w4 [b|e]].
Qed.

(** The materializer changes the file system and nothing else. *)
Lemma bind_changes_fs {A B} (m : M G A) (k : A → M G B) (w : world G) :
  (∀ w0, ∃ fs', (m w0).1 = set_fs fs' w0) →
  (∀ a w0, ∃ fs', (k a w0).1 = set_fs fs' w0) →
  ∃ fs', ((m ≫= k) w).1 = set_fs fs' w.
Proof.
  intros Hm Hk. unfold mbind, M_bind, bind.
  destruct (Hm w) as [fs1 H1]. destruct (m w) as [w1 [a|e]]; simpl in *.
  - destruct (Hk a w1) as [fs2 H2]. exists fs2. by rewrite H2, H1.
  - eauto.
Qed.

Lemma for_each_changes_fs {X} (body : X → M G unit) xs (w : world G) :
  (∀ x w0, ∃ fs', (body x w0).1 = set_fs fs' w0) →
  ∃ fs', (for_each xs body w).1 = set_fs fs' w.
Proof.
  intros Hbody. revert w. induction xs as [|x xs IH]; intros w.
  - exists (w_fs w). by destruct w.
  - cbn [for_each]. apply bind_changes_fs; [by apply Hbody|].
    intros _ w0. apply IH.
Qed.

Lemma create_batch_folder_changes_fs files name directory (w : world G) :
  ∃ fs', (create_batch_folder files name directory w).1 = set_fs fs' w.
Proof.
  assert (∀ w0 : world G, w0 = set_fs (w_fs w0) w0) as Hsame
    by (by intros []).
  unfold create_batch_folder. apply bind_changes_fs.
  { intros w0. exists (w_fs w0). apply Hsame. }
  intros present w0. apply bind_changes_fs.
  { intros w1. destruct present; [|exists (w_fs w1); apply Hsame].
    unfold os_rmdir. destruct (w_fs w1 !! _) as [[]|]; try by eauto.
    destruct (dir_entries _ _); by eauto. }
  intros _ w1. apply bind_changes_fs.
  { intros w2. unfold os_makedirs. destruct (makedirs_at _ _ _). by eauto. }
  intros _ w2. apply for_each_changes_fs. intros f w3.
  unfold shutil_copy. repeat case_match; by eauto.
Qed.

Lemma create_all_batches_changes_fs batches directory (w : world G) :
  ∃ fs', (create_all_batches batches directory w).1 = set_fs fs' w.
Proof.
  apply for_each_changes_fs. intros [j files] w0.
  apply create_batch_folder_changes_fs.
Qed.

(** The list objects and the generator are, after [main], as the
    partitioner left them. *)
Lemma main_heap_rng (argv : cli) (w : world G) :
  w_heap (main argv w).1 = w_heap (main_partition argv w).1
  ∧ w_rng (main argv w).1 = w_rng (main_partition argv w).1.
Proof.
  rewrite main_eq. unfold mbind, M_bind, bind.
  destruct (main_partition argv w) as [w1 [[[l batches] o]|e]]; [|done].
  destruct (create_all_batches_changes_fs batches o w1) as [fs' ->]. done.
Qed.


Lemma append_loop_run (d : string) (names acc : list string) (w : world G) :
  for_each names
    (λ filename,
       let full_filepath := os_path_join d filename in
       absolute_filepath ← (λ w, (w, Ok (os_path_abspath (w_cwd w) full_filepath)));
       list_append (length (w_heap w)) absolute_filepath)
    (set_heap (w_heap w ++ [acc])%list w)
  = (set_heap
       (w_heap w
        ++ [acc ++ ((λ filename, os_path_abspath (w_cwd w) (os_path_join d filename))
                      <$> names)])%list w,
     Ok tt).
Proof.
  destruct w as [g h cwd fs]. unfold set_heap. cbn [w_heap w_rng w_cwd w_fs].
  revert acc. induction names as [|n names IH]; intros acc.
  - simpl. by rewrite app_nil_r.
  - erewrite for_each_cons_ok.
    2:{ cbn zeta. erewrite bind_ok by reflexivity.
        unfold list_append, set_heap. cbn [w_heap w_rng w_cwd w_fs].
        rewrite list_lookup_middle by done.
        rewrite insert_app_r_alt, Nat.sub_diag by done. reflexivity. }
    cbn [insert list_insert].
    rewrite (IH (acc ++ [_])%list). by rewrite <-app_assoc.
Qed.

Lemma gather_filenames_run (d : string) (w : world G) :
  w_fs w !! key_of w d = Some Dir →
  gather_filenames d w
  = (set_heap (w_heap w ++ [listing w d])%list w, Ok (length (w_heap w))).
Proof.
  intros Hdir. unfold gather_filenames.
  erewrite bind_ok by (unfold os_listdir; rewrite Hdir; reflexivity).
  erewrite bind_ok by reflexivity.
  erewrite bind_ok by apply (append_loop_run d _ [] w).
  done.
Qed.

Lemma gather_filenames_fails (d : string) (w : world G) :
  w_fs w !! key_of w d ≠ Some Dir →
  ∃ e, gather_filenames d w = (w, Raise e).
Proof.
  intros Hdir. unfold gather_filenames.
  destruct (w_fs w !! key_of w d) as [[c|]|] eqn:Hk; [|done|].
  - exists NotADirectoryError. apply bind_raise. unfold os_listdir. by rewrite Hk.
  - eexists. apply bind_raise. unfold os_listdir. by rewrite Hk.
Qed.


Lemma main_partition_run d bs sh out seed (w : world G) :
  w_fs w !! key_of w d = Some Dir →
  main_partition (Cli (Some d) bs sh out seed) w
  = (batches_dict ←
       split_filepaths_into_batches (length (w_heap w))
         (from_option PyStr (PyInt 100) bs)
         (from_option PyStr (PyBool true) sh) PyNone;
     ret (length (w_heap w), batches_dict, default (w_cwd w) out))
      (set_heap (w_heap w ++ [listing w d])%list w).
Proof.
  intros Hdir. unfold main_partition.
  erewrite bind_ok by reflexivity.
  erewrite bind_ok by reflexivity. cbn [args_directory args_batch_size
    args_shuffle args_output_directory default_batch_size default_shuffle
    default_output_directory].
  by erewrite bind_ok by by apply gather_filenames_run.
Qed.

Lemma main_partition_no_listing d bs sh out seed (w : world G) :
  w_fs w !! key_of w d ≠ Some Dir →
  ∃ e, main_partition (Cli (Some d) bs sh out seed) w = (w, Raise e).
Proof.
  intros Hdir. destruct (gather_filenames_fails d w Hdir) as [e He].
  exists e. unfold main_partition.
  erewrite bind_ok by reflexivity.
  erewrite bind_ok by reflexivity.
  by apply bind_raise.
Qed.

Lemma main_partition_ignores_seed d bs sh out seed (w : world G) :
  main_partition (Cli d bs sh out seed) w = main_partition (Cli d bs sh out None) w.
Proof. unfold main_partition. destruct d; reflexivity. Qed.

Lemma listing_heap_lookup (w : world G) d :
  w_heap (set_heap (w_heap w ++ [listing w d])%list w) !! length (w_heap w)
  = Some (listing w d).
Proof. simpl. by apply list_lookup_middle. Qed.

End front_end_props.

(** ** Claims about the materializer and the front end *)

Section program_claims.
Context {G : Type} `{!Rng G}.

(** C6: the folder of batch [batch_no] is named ["Batch "] followed by the
    decimal number, so distinct batch numbers give distinct folder names
    and distinct folder paths under one output directory, and
    [create_all_batches] passes exactly that name.  When a directory
    already exists at the folder path it is removed with [os.rmdir], which
    is not recursive: if the directory has entries the call raises and
    leaves the file system untouched, nothing being recreated or copied;
    if it is empty it is removed and the call goes on as from the file
    system without it, making the folder again and copying every member
    into it under its own base name. *)
Theorem materializer_folder_policy
    (files : list string) (batch_no : Z) (directory : string) (w : world G) :
  batch_folder_name batch_no = "Batch " +:+ py_str batch_no
  ∧ (∀ j, batch_folder_name j = batch_folder_name batch_no → j = batch_no)
  ∧ (∀ j, batch_folder_path directory j = batch_folder_path directory batch_no →
          j = batch_no)
  ∧ (∀ rest (w' : world G),
       create_all_batches ((batch_no, files) :: rest) directory w'
       = (create_batch_folder files (batch_folder_name batch_no) directory;;
          create_all_batches rest directory) w')
  ∧ (w_fs w !! key_of w (batch_folder_path directory batch_no) = Some Dir →
     dir_entries (w_fs w) (key_of w (batch_folder_path directory batch_no)) ≠ [] →
     create_batch_folder files (batch_folder_name batch_no) directory w
     = (w, Raise DirectoryNotEmpty))
  ∧ (w_fs w !! key_of w (batch_folder_path directory batch_no) = Some Dir →
     dir_entries (w_fs w) (key_of w (batch_folder_path directory batch_no)) = [] →
     create_batch_folder files (batch_folder_name batch_no) directory w
     = create_batch_folder files (batch_folder_name batch_no) directory
         (set_fs
            (delete (key_of w (batch_folder_path directory batch_no)) (w_fs w))
            w)
     ∧ (os_path_basename (key_of w (batch_folder_path directory batch_no)) ≠ "" →
        w_fs w !! os_path_dirname
                    (key_of w (batch_folder_path directory batch_no))
        = Some Dir →
        (∀ f, f ∈ files → os_path_basename f ≠ "") →
        (∀ f, f ∈ files → ∃ c, w_fs w !! key_of w f = Some (File c)) →
        (∀ f, f ∈ files →
           w_fs w !! batch_target w (batch_folder_path directory batch_no) f
           = None) →
        (∀ f f', f ∈ files → f' ∈ files →
           key_of w f
           ≠ batch_target w (batch_folder_path directory batch_no) f') →
        ∃ fs' : gmap string node,
          create_batch_folder files (batch_folder_name batch_no) directory w
          = (set_fs fs' w, Ok tt)
          ∧ fs' !! key_of w (batch_folder_path directory batch_no) = Some Dir
          ∧ (∀ f, f ∈ files →
               ∃ c, fs' !! batch_target w
                             (batch_folder_path directory batch_no) f
                    = Some (File c))
          ∧ (NoDup (batch_target w (batch_folder_path directory batch_no)
                      <$> files) →
             ∀ f c, f ∈ files → w_fs w !! key_of w f = Some (File c) →
                    fs' !! batch_target w
                             (batch_folder_path directory batch_no) f
                    = Some (File c))
          ∧ (∀ q, q ∉ batch_target w (batch_folder_path directory batch_no)
                        <$> files →
                  fs' !! q = w_fs w !! q))).
Proof.
  unfold batch_folder_path.
  set (folder := os_path_join directory (batch_folder_name batch_no)).
  set (k := key_of w folder).
  split_and!.
  - done.
  - intros j. apply batch_folder_name_inj.
  - intros j. apply batch_folder_path_inj.
  - done.
  - apply create_batch_folder_not_empty.
  - intros Hdir Hent. split.
    { by apply create_batch_folder_removes_empty. }
    intros Hbase Hparent Hnamed Hsrc Hfree Hne.
    rewrite create_batch_folder_removes_empty by done. fold folder k.
    set (w0 := set_fs (delete k (w_fs w)) w).
    destruct (create_batch_folder_fresh files (batch_folder_name batch_no)
                directory w0)
      as (fs' & Hrun & Hfolder & Hframe & Hfile & Hcontent).
    + apply lookup_delete_eq.
    + done.
    + change (w_fs w0) with (delete k (w_fs w)).
      change (key_of w0) with (key_of w). fold folder k.
      rewrite lookup_delete_ne; [done|].
      apply not_eq_sym. by apply os_path_dirname_ne.
    + done.
    + intros f Hf. destruct (Hsrc f Hf) as [c Hc]. exists c.
      change (w_fs w0) with (delete k (w_fs w)).
      change (key_of w0) with (key_of w).
      rewrite lookup_delete_ne; [done|]. congruence.
    + intros f Hf. change (w_fs w0) with (delete k (w_fs w)).
      change (batch_target w0) with (batch_target w).
      apply lookup_delete_None. right. by apply Hfree.
    + done.
    + change (batch_target w0) with (batch_target w) in *.
      change (key_of w0) with (key_of w) in *.
      change (w_fs w0) with (delete k (w_fs w)) in *.
      fold folder k in Hfolder, Hframe, Hfile, Hcontent.
      exists fs'. split_and!; try done.
      * intros Hnd f c Hf Hc. apply Hcontent; [done..|].
        rewrite lookup_delete_ne; [done|]. congruence.
      * intros q Hq. destruct (decide (q = k)) as [->|Hqk].
        -- by rewrite Hfolder.
        -- rewrite Hframe by done. by rewrite lookup_delete_ne.
Qed.

(** C7: from an empty path sequence the partitioner returns the empty
    batch collection for every positive batch size, and the materializer,
    given the empty collection, returns at once with the world, and so the
    file system, as it was; a run of [main] over an empty directory creates
    no folder. *)
Theorem empty_input_creates_nothing
    (l : loc) (bs sh seed : pyval) (b : Z) (directory : string) (w : world G) :
  w_heap w !! l = Some [] → as_int bs = Ok b → 0 < b →
  (split_filepaths_into_batches l bs sh seed w).2 = Ok []
  ∧ w_fs (split_filepaths_into_batches l bs sh seed w).1 = w_fs w
  ∧ (∀ w' : world G, create_all_batches [] directory w' = (w', Ok tt))
  ∧ (∀ d sh' out seed',
       w_fs w !! key_of w d = Some Dir →
       dir_entries (w_fs w) (key_of w d) = [] →
       (main (Cli (Some d) None sh' out seed') w).2 = Ok tt
       ∧ w_fs (main (Cli (Some d) None sh' out seed') w).1 = w_fs w).
Proof.
  intros Hl Hb Hpos.
  assert (∀ (l0 : loc) bs0 sh0 seed0 b0 (w0 : world G),
            w_heap w0 !! l0 = Some [] → as_int bs0 = Ok b0 → 0 < b0 →
            split_filepaths_into_batches l0 bs0 sh0 seed0 w0
            = (arranged_world l0 sh0 seed0 [] w0, Ok [])) as Hsplit.
  { intros l0 bs0 sh0 seed0 b0 w0 Hl0 Hb0 Hpos0.
    rewrite (split_run l0 bs0 sh0 seed0 b0 [] w0) by done.
    change (Z.of_nat (length [])) with 0.
    replace ((0 + b0 - 1) `div` b0) with 0; [done|].
    symmetry. apply Z.div_small. lia. }
  rewrite (Hsplit l bs sh seed b w) by done. split_and!; try done.
  intros d sh' out seed' Hdir Hent.
  assert (listing w d = []) as Hlist by (unfold listing; by rewrite Hent).
  pose proof (listing_heap_lookup w d) as Hlook. rewrite Hlist in Hlook.
  pose proof (main_partition_run d None sh' out seed' w Hdir) as Hpart.
  rewrite Hlist in Hpart.
  erewrite bind_ok in Hpart by (by eapply (Hsplit _ _ _ _ 100)).
  rewrite main_eq. by erewrite bind_ok by exact Hpart.
Qed.

End program_claims.

Section front_end_claims.
Context {G : Type} `{!Rng G}.

(** C5, as the code has it: a batch size of zero makes the partitioner
    raise [ValueError], the error of [range] for a zero step; a negative
    batch size raises nothing: the partitioner returns the empty batch
    collection, from which the materializer creates no folder.  In both
    cases the partitioner leaves the file system as it was. *)
Theorem nonpositive_batch_size_outcome
    (l : loc) (bs sh seed : pyval) (b : Z) (directory : string)
    (paths : list string) (w : world G) :
  w_heap w !! l = Some paths → as_int bs = Ok b → b ≤ 0 →
  (b = 0 → (split_filepaths_into_batches l bs sh seed w).2 = Raise ValueError)
  ∧ (b < 0 → (split_filepaths_into_batches l bs sh seed w).2 = Ok [])
  ∧ w_fs (split_filepaths_into_batches l bs sh seed w).1 = w_fs w
  ∧ (∀ w' : world G, create_all_batches [] directory w' = (w', Ok tt)).
Proof.
  intros Hl Hb Hle. split_and!.
  - intros ->. by erewrite split_run_zero.
  - intros Hneg. by erewrite split_run_negative.
  - by rewrite (split_world l bs sh seed paths w Hl).
  - done.
Qed.

(** C8: a value given to -b/--batch_size is stored as the string it was
    typed as.  [main] hands that string to the partitioner, where [range]
    raises [TypeError]: the run produces no batch and changes no file.
    Without the flag the batch size is the integer 100 and the
    partitioner returns the batches of the listing. *)
Theorem supplied_batch_size_raises
    (d v : string) (sh out seed : option string) (w : world G) :
  (∀ p : parser, ∃ ns,
     parse_args p (Cli (Some d) (Some v) sh out seed) w = (w, Ok ns)
     ∧ args_batch_size ns = PyStr v)
  ∧ (∃ e, (main (Cli (Some d) (Some v) sh out seed) w).2 = Raise e)
  ∧ w_fs (main (Cli (Some d) (Some v) sh out seed) w).1 = w_fs w
  ∧ (w_fs w !! key_of w d = Some Dir →
     (main_partition (Cli (Some d) (Some v) sh out seed) w).2 = Raise TypeError
     ∧ (main (Cli (Some d) (Some v) sh out seed) w).2 = Raise TypeError)
  ∧ (∀ p : parser, ∃ ns,
       parse_args p (Cli (Some d) None sh out seed) w = (w, Ok ns)
       ∧ args_batch_size ns = default_batch_size p)
  ∧ (∃ p, (initialize_parser w).2 = Ok p ∧ default_batch_size p = PyInt 100)
  ∧ (w_fs w !! key_of w d = Some Dir →
     ∃ batches,
       (main_partition (Cli (Some d) None sh out seed) w).2
       = Ok (length (w_heap w), batches, default (w_cwd w) out)
       ∧ batches.*1
         = seqZ 1 (batch_count (Z.of_nat (length (listing w d))) 100)
       ∧ concat batches.*2 ≡ₚ listing w d).
Proof.
  assert (w_fs w !! key_of w d = Some Dir →
            main_partition (Cli (Some d) (Some v) sh out seed) w
            = (arranged_world (length (w_heap w))
                 (from_option PyStr (PyBool true) sh) PyNone (listing w d)
                 (set_heap (w_heap w ++ [listing w d])%list w),
               Raise TypeError)) as Hstr.
  { intros Hdir. rewrite main_partition_run by done.
    apply bind_raise. apply split_run_not_int; [apply listing_heap_lookup|done]. }
  split_and!.
  - intros p. by eexists.
  - destruct (decide (w_fs w !! key_of w d = Some Dir)) as [Hdir|Hdir].
    + exists TypeError. rewrite main_eq. by erewrite bind_raise by by apply Hstr.
    + destruct (main_partition_no_listing d (Some v) sh out seed w Hdir)
        as [e He].
      exists e. rewrite main_eq. by erewrite bind_raise by exact He.
  - destruct (decide (w_fs w !! key_of w d = Some Dir)) as [Hdir|Hdir].
    + rewrite main_eq. by erewrite bind_raise by by apply Hstr.
    + destruct (main_partition_no_listing d (Some v) sh out seed w Hdir)
        as [e He].
      rewrite main_eq. by erewrite bind_raise by exact He.
  - intros Hdir. split.
    + by rewrite Hstr.
    + rewrite main_eq. by erewrite bind_raise by by apply Hstr.
  - intros p. by eexists.
  - by eexists.
  - intros Hdir. rewrite main_partition_run by done.
    erewrite bind_ok
      by (apply (split_run _ _ _ _ 100 (listing w d));
          [apply listing_heap_lookup|done|lia]).
    eexists. split_and!; [done|apply windows_keys|]. cbn [snd].
    rewrite windows_concat_same_length; [apply arranged_perm|lia|].
    apply Permutation_length, arranged_perm.
Qed.

(** C9: a value given to -s/--shuffle is stored as the string it was typed
    as, and a string is true unless it is empty.  With any non-empty value
    ("False", "false" and "0" included) [main] runs exactly as it does
    without the flag, and it shuffles: when [main] has ended, well or
    with an exception of the partitioner or the materializer, the list of
    the listed paths holds the order [random.shuffle] gave it and the
    generator is in the state the shuffle left; the partitioner cut its
    batches from that order.  Only the empty string leaves the listing in
    its order and the generator untouched. *)
Theorem supplied_shuffle_still_shuffles
    (d v : string) (bs out seed : option string) (w : world G) :
  w_fs w !! key_of w d = Some Dir →
  (∀ p : parser, ∃ ns,
     parse_args p (Cli (Some d) bs (Some v) out seed) w = (w, Ok ns)
     ∧ args_shuffle ns = PyStr v)
  ∧ (truthy (PyStr v) = true ↔ v ≠ "")
  ∧ truthy (PyStr "False") = true ∧ truthy (PyStr "false") = true
  ∧ truthy (PyStr "0") = true
  ∧ (v ≠ "" →
     main_partition (Cli (Some d) bs (Some v) out seed) w
     = main_partition (Cli (Some d) bs None out seed) w
     ∧ main (Cli (Some d) bs (Some v) out seed) w
       = main (Cli (Some d) bs None out seed) w
     ∧ w_heap (main_partition (Cli (Some d) bs (Some v) out seed) w).1
         !! length (w_heap w)
       = Some (random_shuffle (listing w d) (w_rng w)).1
     ∧ w_rng (main_partition (Cli (Some d) bs (Some v) out seed) w).1
       = (random_shuffle (listing w d) (w_rng w)).2
     ∧ w_heap (main (Cli (Some d) bs (Some v) out seed) w).1
         !! length (w_heap w)
       = Some (random_shuffle (listing w d) (w_rng w)).1
     ∧ w_rng (main (Cli (Some d) bs (Some v) out seed) w).1
       = (random_shuffle (listing w d) (w_rng w)).2
     ∧ (bs = None →
        ∃ batches,
          main (Cli (Some d) bs (Some v) out seed) w
          = create_all_batches batches (default (w_cwd w) out)
              (main_partition (Cli (Some d) bs (Some v) out seed) w).1
          ∧ concat batches.*2
            = (random_shuffle (listing w d) (w_rng w)).1))
  ∧ (v = "" →
     w_heap (main_partition (Cli (Some d) bs (Some v) out seed) w).1
       !! length (w_heap w)
     = Some (listing w d)
     ∧ w_rng (main_partition (Cli (Some d) bs (Some v) out seed) w).1
       = w_rng w
     ∧ w_heap (main (Cli (Some d) bs (Some v) out seed) w).1
         !! length (w_heap w)
       = Some (listing w d)
     ∧ w_rng (main (Cli (Some d) bs (Some v) out seed) w).1 = w_rng w).
Proof.
  intros Hdir.
  assert (∀ shv,
            (main_partition (Cli (Some d) bs shv out seed) w).1
            = arranged_world (length (w_heap w))
                (from_option PyStr (PyBool true) shv) PyNone (listing w d)
                (set_heap (w_heap w ++ [listing w d])%list w)) as Hworld.
  { intros shv. rewrite main_partition_run by done.
    pose proof (split_world (length (w_heap w))
                  (from_option PyStr (PyInt 100) bs)
                  (from_option PyStr (PyBool true) shv) PyNone (listing w d)
                  (set_heap (w_heap w ++ [listing w d])%list w)
                  (listing_heap_lookup w d)) as Hw.
    unfold mbind, M_bind, bind.
    destruct (split_filepaths_into_batches _ _ _ _ _) as [w' [a|e]];
      simpl in *; by subst. }
  assert (truthy (PyStr v) = true ↔ v ≠ "") as Htruthy.
  { simpl. destruct (String.eqb_spec v ""); split; intros; done. }
  destruct (main_heap_rng (Cli (Some d) bs (Some v) out seed) w)
    as [Hheap Hrng].
  split_and!; try done.
  - intros p. by eexists.
  - intros Hv. apply Htruthy in Hv.
    assert (main_partition (Cli (Some d) bs (Some v) out seed) w
            = main_partition (Cli (Some d) bs None out seed) w) as Hsame.
    { rewrite !main_partition_run by done.
      unfold split_filepaths_into_batches. cbn [from_option].
      by rewrite Hv. }
    assert (w_heap (main_partition (Cli (Some d) bs (Some v) out seed) w).1
              !! length (w_heap w)
            = Some (random_shuffle (listing w d) (w_rng w)).1) as Hshuffled.
    { rewrite Hworld, arranged_world_heap by apply listing_heap_lookup.
      unfold arranged. cbn [from_option]. by rewrite Hv. }
    assert (w_rng (main_partition (Cli (Some d) bs (Some v) out seed) w).1
            = (random_shuffle (listing w d) (w_rng w)).2) as Hstate.
    { rewrite Hworld. unfold arranged_world, arranged. cbn [from_option].
      by rewrite Hv. }
    split_and!.
    + done.
    + rewrite !main_eq. unfold mbind, M_bind, bind. by rewrite Hsame.
    + done.
    + done.
    + by rewrite Hheap.
    + by rewrite Hrng.
    + intros ->.
      assert (∃ w1 batches,
                main_partition (Cli (Some d) None (Some v) out seed) w
                = (w1, Ok (length (w_heap w), batches, default (w_cwd w) out))
                ∧ concat batches.*2
                  = (random_shuffle (listing w d) (w_rng w)).1)
        as (w1 & batches & Hpart & Hcut).
      { rewrite main_partition_run by done.
        erewrite bind_ok
          by (apply (split_run _ _ _ _ 100 (listing w d));
              [apply listing_heap_lookup|done|lia]).
        do 2 eexists. split; [done|].
        rewrite windows_concat_same_length;
          [|lia|apply Permutation_length, arranged_perm].
        unfold arranged. cbn [from_option]. by rewrite Hv. }
      exists batches. split; [|done].
      rewrite main_eq. erewrite bind_ok by exact Hpart. by rewrite Hpart.
  - intros ->.
    assert (w_heap (main_partition (Cli (Some d) bs (Some "") out seed) w).1
              !! length (w_heap w) = Some (listing w d)) as Hkept.
    { rewrite Hworld.
      by rewrite arranged_world_heap by apply listing_heap_lookup. }
    assert (w_rng (main_partition (Cli (Some d) bs (Some "") out seed) w).1
            = w_rng w) as Hstate by by rewrite Hworld.
    split_and!; [done|done|by rewrite Hheap|by rewrite Hrng].
Qed.

End front_end_claims.

(** ** The claims on the sample worlds *)

Ltac each_member H :=
  repeat (apply elem_of_cons in H as [->|H]);
  [..|by apply elem_of_nil in H].

(** C2: the value of -S/--seed is parsed and then dropped: [main] calls
    the partitioner without a seed, so a run with the flag is the run
    without it, and two runs with the same seed over the same listing,
    started from different generator states, return different batch
    collections. *)
Theorem seed_flag_never_reaches_partitioner :
  (∀ d bs sh out s (w : world Z),
     main (Cli d bs sh out (Some s)) w = main (Cli d bs sh out None) w)
  ∧ listing (sample_world 1 sample_fs) "/in"
    = listing (sample_world 2 sample_fs) "/in"
  ∧ (main_partition sample_argv_seed (sample_world 1 sample_fs)).2
    = Ok (0%nat, [(1, ["/in/d"; "/in/e"; "/in/c"; "/in/a"; "/in/b"])], "/out")
  ∧ (main_partition sample_argv_seed (sample_world 2 sample_fs)).2
    = Ok (0%nat, [(1, ["/in/d"; "/in/a"; "/in/c"; "/in/e"; "/in/b"])], "/out").
Proof.
  split_and!.
  - intros d bs sh out s w. rewrite !main_eq. unfold mbind, M_bind, bind.
    by rewrite main_partition_ignores_seed.
  - reflexivity.
  - vm_compute. reflexivity.
  - vm_compute. reflexivity.
Qed.

(** C5 fails for a negative batch size: the partitioner raises nothing and
    returns the empty batch collection. *)
Lemma negative_batch_size_not_rejected :
  ¬ ∃ e, (split_filepaths_into_batches 0%nat (PyInt (-1)) (PyBool false)
            PyNone (sample_heap_world 1)).2 = Raise e.
Proof. intros [e He]. vm_compute in He. discriminate He. Qed.

(** Five paths in batches of two, shuffled under seed 5. *)
Lemma split_partitions_input_witness :
  ∃ batches,
    (split_filepaths_into_batches 0%nat (PyInt 2) (PyBool true) (PyInt 5)
       (sample_heap_world 7)).2 = Ok batches
    ∧ batches.*1 = [1; 2; 3]
    ∧ concat batches.*2 ≡ₚ ["/in/a"; "/in/b"; "/in/c"; "/in/d"; "/in/e"].
Proof.
  destruct (split_partitions_input 0%nat (PyInt 2) (PyBool true) (PyInt 5) 2
              ["/in/a"; "/in/b"; "/in/c"; "/in/d"; "/in/e"]
              (sample_heap_world 7))
    as (batches & ordered & w' & Hrun & _ & _ & _ & Hkeys & _ & _ & _ & _
        & Hperm & _); [reflexivity|reflexivity|lia|].
  exists batches. rewrite Hrun. split_and!; [reflexivity|exact Hkeys|exact Hperm].
Defined.

(** Two processes in different generator states, both seeded with 5. *)
Lemma split_seeded_reproducible_witness :
  (split_filepaths_into_batches 0%nat (PyInt 2) (PyBool true) (PyInt 5)
     (sample_heap_world 1)).2
  = (split_filepaths_into_batches 0%nat (PyInt 2) (PyBool true) (PyInt 5)
       (sample_heap_world 2)).2.
Proof.
  destruct (split_seeded_reproducible 0%nat 0%nat (PyInt 2) (PyBool true)
              (PyInt 5) 2 ["/in/a"; "/in/b"; "/in/c"; "/in/d"; "/in/e"]
              (sample_heap_world 1) (sample_heap_world 2))
    as (batches & H1 & H2 & _);
    [reflexivity|reflexivity|reflexivity|lia|reflexivity|discriminate|].
  rewrite H1, H2. reflexivity.
Defined.

(** Five paths in batches of two, in listing order. *)
Lemma split_unshuffled_slices_witness :
  ∃ batches,
    (split_filepaths_into_batches 0%nat (PyInt 2) (PyBool false) PyNone
       (sample_heap_world 1)).2 = Ok batches
    ∧ dict_get batches 2 = Some ["/in/c"; "/in/d"]
    ∧ dict_get batches 3 = Some ["/in/e"].
Proof.
  destruct (split_unshuffled_slices 0%nat (PyInt 2) (PyBool false) PyNone 2
              ["/in/a"; "/in/b"; "/in/c"; "/in/d"; "/in/e"]
              (sample_heap_world 1))
    as (batches & Hrun & _ & Hget & _);
    [reflexivity|reflexivity|lia|reflexivity|].
  exists batches. split_and!.
  - exact Hrun.
  - rewrite (Hget 2) by (vm_compute; split; discriminate). reflexivity.
  - rewrite (Hget 3) by (vm_compute; split; discriminate). reflexivity.
Defined.


(** Batch sizes 0 and -1. *)
Lemma nonpositive_batch_size_outcome_witness :
  (split_filepaths_into_batches 0%nat (PyInt 0) (PyBool false) PyNone
     (sample_heap_world 1)).2 = Raise ValueError
  ∧ (split_filepaths_into_batches 0%nat (PyInt (-1)) (PyBool false) PyNone
       (sample_heap_world 1)).2 = Ok [].
Proof.
  split.
  - destruct (nonpositive_batch_size_outcome 0%nat (PyInt 0) (PyBool false)
                PyNone 0 "/out"
                ["/in/a"; "/in/b"; "/in/c"; "/in/d"; "/in/e"]
                (sample_heap_world 1)) as (Hzero & _);
      [reflexivity|reflexivity|lia|].
    apply Hzero. reflexivity.
  - destruct (nonpositive_batch_size_outcome 0%nat (PyInt (-1)) (PyBool false)
                PyNone (-1) "/out"
                ["/in/a"; "/in/b"; "/in/c"; "/in/d"; "/in/e"]
                (sample_heap_world 1)) as (_ & Hneg & _);
      [reflexivity|reflexivity|lia|].
    apply Hneg. lia.
Defined.

(** A rerun over an empty [/out/Batch 1], and one over a folder that still
    holds a file. *)
Lemma materializer_folder_policy_witness :
  (∃ fs',
     create_batch_folder ["/in/a"; "/in/b"] (batch_folder_name 1) "/out"
       (sample_world 1 sample_fs_rerun)
     = (set_fs fs' (sample_world 1 sample_fs_rerun), Ok tt)
     ∧ fs' !! "/out/Batch 1" = Some Dir
     ∧ fs' !! "/out/Batch 1/a" = Some (File "A")
     ∧ fs' !! "/out/Batch 1/b" = Some (File "B"))
  ∧ create_batch_folder ["/in/a"; "/in/b"] (batch_folder_name 1) "/out"
      (sample_world 1 sample_fs_leftover)
    = (sample_world 1 sample_fs_leftover, Raise DirectoryNotEmpty).
Proof.
  split.
  - destruct (materializer_folder_policy ["/in/a"; "/in/b"] 1 "/out"
                (sample_world 1 sample_fs_rerun))
      as (_ & _ & _ & _ & _ & Hempty).
    destruct Hempty as [_ Hfill]; [vm_compute; reflexivity..|].
    destruct Hfill as (fs' & Hrun & Hdir & _ & Hcontent & _).
    + vm_compute. discriminate.
    + vm_compute. reflexivity.
    + intros f Hf. each_member Hf; vm_compute; discriminate.
    + intros f Hf. each_member Hf; eexists; vm_compute; reflexivity.
    + intros f Hf. each_member Hf; vm_compute; reflexivity.
    + intros f f' Hf Hf'. each_member Hf; each_member Hf';
        vm_compute; discriminate.
    + exists fs'. split_and!.
      * exact Hrun.
      * exact Hdir.
      * apply (Hcontent ltac:(apply (bool_decide_unpack _); vm_compute; exact I)
                 "/in/a" "A"); [by left|vm_compute; reflexivity].
      * apply (Hcontent ltac:(apply (bool_decide_unpack _); vm_compute; exact I)
                 "/in/b" "B"); [by right; left|vm_compute; reflexivity].
  - destruct (materializer_folder_policy ["/in/a"; "/in/b"] 1 "/out"
                (sample_world 1 sample_fs_leftover))
      as (_ & _ & _ & _ & Hfull & _).
    apply Hfull; [vm_compute; reflexivity|vm_compute; discriminate].
Defined.

(** An empty list object, and a run over a directory without entries. *)
Lemma empty_input_creates_nothing_witness :
  (split_filepaths_into_batches 0%nat (PyInt 100) (PyBool true) PyNone
     (World 1 [[]] "/" sample_fs_empty)).2 = Ok []
  ∧ w_fs (main (Cli (Some "/in") None None (Some "/out") None)
            (World 1 [[]] "/" sample_fs_empty)).1
    = sample_fs_empty.
Proof.
  destruct (empty_input_creates_nothing 0%nat (PyInt 100) (PyBool true) PyNone
              100 "/out" (World 1 [[]] "/" sample_fs_empty))
    as (Hsplit & _ & _ & Hmain); [reflexivity|reflexivity|lia|].
  split; [exact Hsplit|].
  destruct (Hmain "/in" None (Some "/out") None) as [_ Hfs];
    [vm_compute; reflexivity..|].
  exact Hfs.
Defined.

(** The command lines [-d /in -b 2 -o /out] and [-d /in -o /out]. *)
Lemma supplied_batch_size_raises_witness :
  (main (Cli (Some "/in") (Some "2") None (Some "/out") None)
     (sample_world 1 sample_fs)).2 = Raise TypeError
  ∧ ∃ batches,
      (main_partition (Cli (Some "/in") None None (Some "/out") None)
         (sample_world 1 sample_fs)).2 = Ok (0%nat, batches, "/out")
      ∧ batches.*1 = [1].
Proof.
  destruct (supplied_batch_size_raises "/in" "2" None (Some "/out") None
              (sample_world 1 sample_fs))
    as (_ & _ & _ & Hstr & _ & _ & Hdef).
  split.
  - apply Hstr. vm_compute. reflexivity.
  - destruct Hdef as (batches & Hrun & Hkeys & _); [vm_compute; reflexivity|].
    exists batches. split; [exact Hrun|]. rewrite Hkeys. vm_compute. reflexivity.
Defined.

(** The command line [-d /in -s False -o /out]. *)
Lemma supplied_shuffle_still_shuffles_witness :
  main (Cli (Some "/in") None (Some "False") (Some "/out") None)
    (sample_world 1 sample_fs)
  = main (Cli (Some "/in") None None (Some "/out") None)
      (sample_world 1 sample_fs).
Proof.
  destruct (supplied_shuffle_still_shuffles "/in" "False" None (Some "/out")
              None (sample_world 1 sample_fs))
    as (_ & _ & _ & _ & _ & Hnonempty & _); [vm_compute; reflexivity|].
  destruct Hnonempty as (_ & Hmain & _); [discriminate|]. exact Hmain.
Defined.

(** * Further properties of the program *)

(** ** The lister *)

Section lister_facts.
Context {G : Type} `{!Rng G}.

(** X1: on a directory that exists, [gather_filenames] returns a new list
    object, at an address no list was at before, holding for each entry
    of the directory, in listing order, the absolute form of the directory
    path joined with the entry name.  The lists that were there, the file
    system, the generator and the working directory are as before. *)
Theorem gather_filenames_new_list (directory_path : string) (w : world G) :
  w_fs w !! key_of w directory_path = Some Dir →
  ∃ (l : loc) (w' : world G),
    gather_filenames directory_path w = (w', Ok l)
    ∧ w_heap w !! l = None
    ∧ w_heap w'
      !! l = Some ((λ filename,
                      os_path_abspath (w_cwd w)
                        (os_path_join directory_path filename))
                   <$> dir_entries (w_fs w) (key_of w directory_path))
    ∧ (∀ l', l' ≠ l → w_heap w' !! l' = w_heap w !! l')
    ∧ w_fs w' = w_fs w ∧ w_rng w' = w_rng w ∧ w_cwd w' = w_cwd w.
Proof.
  intros Hdir. exists (length (w_heap w)), (set_heap (w_heap w ++ [listing w directory_path])%list w).
  split_and!; try done.
  - by apply gather_filenames_run.
  - by apply lookup_ge_None_2.
  - apply listing_heap_lookup.
  - intros l' Hne. simpl.
    destruct (decide (l' < length (w_heap w))%nat).
    + by rewrite lookup_app_l.
    + rewrite !lookup_ge_None_2; [done|lia|]. rewrite length_app. simpl. lia.
Qed.


End lister_facts.

(** ** The partitioner *)

Section partitioner_facts.
Context {G : Type} `{!Rng G}.

(** X3: a batch size that is at least the number of paths gives, for a
    list that is not empty, exactly one batch, numbered 1, holding the
    whole list in the order the optional shuffle left it. *)
Theorem split_single_batch
    (l : loc) (bs sh seed : pyval) (b : Z) (paths : list string) (w : world G) :
  w_heap w !! l = Some paths → as_int bs = Ok b →
  paths ≠ [] → Z.of_nat (length paths) ≤ b →
  ∃ ordered : list string,
    (split_filepaths_into_batches l bs sh seed w).2 = Ok [(1, ordered)]
    ∧ w_heap (split_filepaths_into_batches l bs sh seed w).1 !! l = Some ordered
    ∧ ordered ≡ₚ paths.
Proof.
  intros Hl Hb Hne Hle.
  assert (0 < Z.of_nat (length paths)) by (destruct paths; [done|simpl; lia]).
  set (ordered := (arranged sh seed paths (w_rng w)).1).
  assert (ordered ≡ₚ paths) as Hperm by apply arranged_perm.
  assert (length ordered = length paths) as Hlen by by rewrite Hperm.
  exists ordered. rewrite (split_run l bs sh seed b paths w) by (done || lia).
  cbn [fst snd]. split_and!; [|by apply arranged_world_heap|done].
  replace ((Z.of_nat (length paths) + b - 1) `div` b) with 1.
  2:{ apply (Z.div_unique _ _ 1 (Z.of_nat (length paths) - 1)); lia. }
  fold ordered. unfold windows.
  rewrite seqZ_cons, seqZ_nil by lia. cbn [fmap list_fmap].
  do 3 f_equal. rewrite py_slice_nonneg by lia.
  replace (Z.to_nat ((1 - 1) * b)) with 0%nat by lia. rewrite drop_0.
  apply take_ge. lia.
Qed.

(** X4: with shuffling disabled the call only seeds.  Without a seed it
    returns the world exactly as it was; with a seed the process-wide
    generator is put in the state of that seed all the same, although
    nothing is shuffled, and the rest of the world is as it was.  This
    holds for every batch size, the erroneous ones included. *)
Theorem split_unshuffled_effects
    (l : loc) (bs sh seed : pyval) (paths : list string) (w : world G) :
  w_heap w !! l = Some paths → truthy sh = false →
  (seed = PyNone → (split_filepaths_into_batches l bs sh seed w).1 = w)
  ∧ (seed ≠ PyNone →
     (split_filepaths_into_batches l bs sh seed w).1 = set_rng (rng_seed seed) w).
Proof.
  intros Hl Hsh. rewrite (split_world l bs sh seed paths w Hl).
  unfold arranged_world, arranged. rewrite Hsh. cbn [fst snd].
  rewrite list_insert_id by done.
  split.
  - intros ->. by destruct w.
  - intros Hseed. destruct seed; try done; by destruct w.
Qed.

(** X5: shuffling decides which path goes into which batch and nothing
    else: two calls with the same positive batch size on lists of the
    same length return the same batch numbers and batches of the same
    sizes, whatever the shuffle flags, the seeds and the generator
    states. *)
Theorem split_shape_independent_of_order
    (l1 l2 : loc) (bs sh1 sh2 seed1 seed2 : pyval) (b : Z)
    (paths1 paths2 : list string) (w1 w2 : world G) :
  w_heap w1 !! l1 = Some paths1 → w_heap w2 !! l2 = Some paths2 →
  length paths1 = length paths2 → as_int bs = Ok b → 0 < b →
  ∃ batches1 batches2 : dict (list string),
    (split_filepaths_into_batches l1 bs sh1 seed1 w1).2 = Ok batches1
    ∧ (split_filepaths_into_batches l2 bs sh2 seed2 w2).2 = Ok batches2
    ∧ batches1.*1 = batches2.*1
    ∧ length <$> batches1.*2 = length <$> batches2.*2.
Proof.
  intros Hl1 Hl2 Hlen Hb Hpos.
  rewrite (split_run l1 bs sh1 seed1 b paths1 w1) by done.
  rewrite (split_run l2 bs sh2 seed2 b paths2 w2) by done.
  do 2 eexists. split_and!; [done|done|..]; cbn [snd]; rewrite Hlen.
  - by rewrite !windows_keys.
  - unfold windows. rewrite <-!list_fmap_compose.
    apply list_fmap_ext. intros _ j Hj%list_elem_of_lookup_2.
    apply elem_of_seqZ in Hj. unfold compose. cbn [snd].
    apply (inj Z.of_nat).
    rewrite !window_length by lia.
    rewrite (Permutation_length (arranged_perm sh1 seed1 paths1 (w_rng w1))).
    rewrite (Permutation_length (arranged_perm sh2 seed2 paths2 (w_rng w2))).
    by rewrite Hlen.
Qed.

End partitioner_facts.

(** ** The materializer *)

Lemma for_each_app {G X} (body : X → M G unit) xs ys (w : world G) :
  for_each (xs ++ ys)%list body w = (for_each xs body;; for_each ys body) w.
Proof.
  revert w. induction xs as [|x xs IH]; intros w; [done|].
  cbn [app for_each]. unfold mbind, M_bind, bind in *.
  destruct (body x w) as [w1 [[]|e]]; [|done]. apply IH.
Qed.

Section materializer_facts.
Context {G : Type} `{!Rng G}.


(** X6: when a regular file sits at the folder path, [os.path.exists] is
    true and [os.rmdir] is called on a file: the call raises
    [NotADirectoryError]; the file is not removed, no folder is made and
    nothing is copied. *)
Theorem create_batch_folder_over_file
    (files : list string) (name directory content : string) (w : world G) :
  w_fs w !! key_of w (os_path_join directory name) = Some (File content) →
  create_batch_folder files name directory w = (w, Raise NotADirectoryError).
Proof.
  intros Hfile. unfold create_batch_folder.
  erewrite bind_ok by reflexivity.
  rewrite Hfile, (bool_decide_eq_true_2 (is_Some (Some _))) by eauto.
  apply bind_raise. unfold os_rmdir. by rewrite Hfile.
Qed.


(** X8: [create_all_batches] handles the batches in the order of the
    dictionary and stops at the first folder that fails: the exception of
    that folder is the outcome, the folders made before it stay as they
    are, and the batches after it are not looked at, so the world is the
    one the failing folder left. *)
Theorem create_all_batches_stops_at_failure
    (before after : dict (list string)) (batch_no : Z) (files : list string)
    (directory : string) (e : exn) (w w1 w2 : world G) :
  create_all_batches before directory w = (w1, Ok tt) →
  create_batch_folder files (batch_folder_name batch_no) directory w1
  = (w2, Raise e) →
  create_all_batches (before ++ (batch_no, files) :: after)%list directory w
  = (w2, Raise e).
Proof.
  intros Hbefore Hfail. unfold create_all_batches in *.
  rewrite for_each_app. erewrite bind_ok by exact Hbefore.
  by apply for_each_cons_raise.
Qed.

End materializer_facts.

(** ** The front end *)

Section front_end_facts.
Context {G : Type} `{!Rng G}.

(** X9: nothing is written before the materializer runs.  For every
    command line, listing and partitioning leave the file system as it
    was; if one of them raises, [main] ends with that exception and has
    created no folder.  Without -d the parser exits with status 2 before
    anything is listed, and the world is untouched. *)
Theorem main_writes_nothing_before_materializing (argv : cli) (w : world G) :
  w_fs (main_partition argv w).1 = w_fs w
  ∧ (∀ e, (main_partition argv w).2 = Raise e →
          main argv w = ((main_partition argv w).1, Raise e))
  ∧ (cli_directory argv = None → main argv w = (w, Raise (SystemExit 2))).
Proof.
  split_and!.
  - destruct argv as [[d|] bs sh out seed]; [|done].
    destruct (decide (w_fs w !! key_of w d = Some Dir)) as [Hdir|Hdir].
    + rewrite main_partition_run by done.
      pose proof (split_world (length (w_heap w))
                    (from_option PyStr (PyInt 100) bs)
                    (from_option PyStr (PyBool true) sh) PyNone (listing w d)
                    (set_heap (w_heap w ++ [listing w d])%list w)
                    (listing_heap_lookup w d)) as Hw.
      unfold mbind, M_bind, bind.
      destruct (split_filepaths_into_batches _ _ _ _ _) as [w' [a|e]];
        simpl in *; by subst.
    + by destruct (main_partition_no_listing d bs sh out seed w Hdir) as [e ->].
  - intros e He. rewrite main_eq. unfold mbind, M_bind, bind.
    destruct (main_partition argv w) as [w' [a|e']]; simpl in *; congruence.
  - destruct argv as [[d|] bs sh out seed]; done.
Qed.

End front_end_facts.

(** ** Paths, continued *)

Lemma has_sep_app a b : has_sep (a +:+ b) = has_sep a || has_sep b.
Proof.
  induction a as [|c a IH]; [done|].
  rewrite string_app_cons. cbn [has_sep]. by rewrite IH, orb_assoc.
Qed.

Lemma ends_with_sep_app a b : b ≠ "" → ends_with_sep (a +:+ b) = ends_with_sep b.
Proof.
  intros Hb. induction a as [|c a IH]; [done|].
  rewrite string_app_cons. cbn [ends_with_sep].
  destruct (a +:+ b) eqn:Hab; [by destruct a, b|done].
Qed.

Lemma ends_with_sep_has_sep s : has_sep s = false → ends_with_sep s = false.
Proof.
  induction s as [|c s IH]; [done|]. cbn [has_sep ends_with_sep].
  intros [Hc Hs]%orb_false_elim. destruct s; [done|by apply IH].
Qed.

Lemma string_app_nil_r a : a +:+ "" = a.
Proof. induction a as [|c a IH]; [done|]. rewrite string_app_cons. by f_equal. Qed.

Lemma string_app_eq_nil a b : a +:+ b = "" → a = "" ∧ b = "".
Proof. by destruct a. Qed.

(** A name without separator behind a prefix that is empty or ends with
    a separator is cut off again at the last separator. *)
Lemma cut_at_last_sep_app p n :
  has_sep n = false → p = "" ∨ ends_with_sep p = true →
  cut_at_last_sep (p +:+ n) = (p, n).
Proof.
  intros Hn Hp. induction p as [|c p IH].
  - change ("" +:+ n) with n. destruct n as [|c n]; [done|].
    cbn [cut_at_last_sep]. cbn [has_sep] in Hn.
    apply orb_false_elim in Hn as [Hc Hn].
    by rewrite Hn, Hc.
  - destruct Hp as [|Hp]; [done|]. rewrite string_app_cons.
    cbn [cut_at_last_sep]. rewrite has_sep_app, Hn, orb_false_r.
    destruct p as [|c' p].
    + cbn [ends_with_sep] in Hp. cbn [has_sep]. by rewrite Hp.
    + assert (has_sep (String c' p) = true) as ->.
      { destruct (has_sep (String c' p)) eqn:Hs; [done|].
        apply ends_with_sep_has_sep in Hs.
        change (ends_with_sep (String c' p) = true) in Hp. congruence. }
      rewrite IH; [done|]. right. exact Hp.
Qed.

Lemma rstrip_sep_app_sep k : rstrip_sep (k +:+ "/") = rstrip_sep k.
Proof.
  induction k as [|c k IH]; [done|].
  rewrite string_app_cons. cbn [rstrip_sep]. by rewrite IH.
Qed.

Lemma rstrip_sep_id k : ends_with_sep k = false → rstrip_sep k = k.
Proof.
  induction k as [|c k IH]; [done|]. cbn [ends_with_sep rstrip_sep].
  destruct k as [|c' k].
  - intros ->. done.
  - intros Hk. by rewrite IH.
Qed.

(** The base name of a path ending in a name without separator. *)
Lemma os_path_basename_app p n :
  has_sep n = false → p = "" ∨ ends_with_sep p = true →
  os_path_basename (p +:+ n) = n.
Proof.
  intros Hn Hp. unfold os_path_basename, os_path_split.
  rewrite cut_at_last_sep_app by done. by destruct (rstrip_sep p).
Qed.

(** Head and tail of [k/n]. *)
Lemma os_path_split_child k n :
  k ≠ "" → ends_with_sep k = false → has_sep n = false →
  os_path_split (k +:+ "/" +:+ n) = (k, n).
Proof.
  intros Hk Hend Hn. unfold os_path_split.
  rewrite <-string_app_assoc, cut_at_last_sep_app; [|done|].
  2:{ right. by rewrite ends_with_sep_app. }
  rewrite rstrip_sep_app_sep, rstrip_sep_id by done. by destruct k.
Qed.

Lemma join_prefix_ends a : join_prefix a = "" ∨ ends_with_sep (join_prefix a) = true.
Proof.
  unfold join_prefix. destruct (String.eqb_spec a "") as [->|Ha]; [by left|].
  cbn [orb]. destruct (ends_with_sep a) eqn:Hend; [by right|].
  right. by rewrite ends_with_sep_app.
Qed.

(** ** Components of a path *)

Lemma split_sep_cons c p :
  split_sep (String c p)
  = if is_sep c then "" :: split_sep p
    else match split_sep p with
         | x :: xs => String c x :: xs
         | [] => [String c ""]
         end.
Proof. done. Qed.

Lemma split_sep_ne p : split_sep p ≠ [].
Proof.
  induction p as [|c p IH]; [done|]. rewrite split_sep_cons.
  destruct (is_sep c); [done|]. by destruct (split_sep p).
Qed.

Lemma split_sep_no_sep n : has_sep n = false → split_sep n = [n].
Proof.
  induction n as [|c n IH]; [done|]. cbn [has_sep].
  intros [Hc Hn]%orb_false_elim. rewrite split_sep_cons, Hc, IH; done.
Qed.

Lemma split_sep_app_sep a b :
  split_sep (a +:+ "/" +:+ b) = (split_sep a ++ split_sep b)%list.
Proof.
  induction a as [|c a IH]; [done|].
  rewrite string_app_cons, !split_sep_cons, IH.
  destruct (is_sep c); [done|].
  pose proof (split_sep_ne a). by destruct (split_sep a).
Qed.

Lemma split_sep_elem_no_sep p c : c ∈ split_sep p → has_sep c = false.
Proof.
  revert c. induction p as [|x p IH]; intros c.
  - by intros ->%list_elem_of_singleton.
  - rewrite split_sep_cons. destruct (is_sep x) eqn:Hx.
    + intros [->|Hc]%elem_of_cons; [done|by apply IH].
    + destruct (split_sep p) as [|y ys] eqn:Hp.
      * intros ->%list_elem_of_singleton. cbn [has_sep]. by rewrite Hx.
      * intros [->|Hc]%elem_of_cons.
        -- cbn [has_sep]. rewrite Hx. apply IH. by left.
        -- apply IH. by right.
Qed.

(** A string that ends with a separator is a string followed by one. *)
Lemma ends_with_sep_inv p : ends_with_sep p = true → ∃ p0, p = p0 +:+ "/".
Proof.
  induction p as [|c p IH]; [done|]. cbn [ends_with_sep].
  destruct p as [|c' p].
  - intros Hc. exists "". unfold is_sep in Hc.
    apply Ascii.eqb_eq in Hc. by subst.
  - intros [p0 Hp0]%IH. exists (String c p0). rewrite string_app_cons.
    by f_equal.
Qed.

(** The components of [join(d, n)] are those of [d], a last empty one
    left out, followed by [n]. *)
Lemma split_sep_join d n :
  d ≠ "" → has_sep n = false →
  ∃ cs, split_sep (os_path_join d n) = (cs ++ [n])%list
        ∧ (split_sep d = cs ∨ split_sep d = (cs ++ [""])%list).
Proof.
  intros Hd Hn.
  rewrite os_path_join_relative by by apply starts_with_sep_has_sep.
  unfold join_prefix. destruct (String.eqb_spec d "") as [|_]; [done|].
  cbn [orb]. destruct (ends_with_sep d) eqn:Hend.
  - apply ends_with_sep_inv in Hend as [p0 ->].
    exists (split_sep p0). rewrite string_app_assoc, split_sep_app_sep.
    rewrite (split_sep_no_sep n) by done. split; [done|].
    right. rewrite <-(string_app_nil_r (p0 +:+ "/")), string_app_assoc.
    by rewrite split_sep_app_sep.
  - exists (split_sep d). rewrite string_app_assoc, split_sep_app_sep.
    rewrite (split_sep_no_sep n) by done. by split; [|left].
Qed.

Lemma join_sep_snoc xs n :
  xs ≠ [] → join_sep (xs ++ [n]) = join_sep xs +:+ "/" +:+ n.
Proof.
  induction xs as [|x xs IH]; [done|]. intros _.
  destruct xs as [|y ys]; [done|].
  change (join_sep ((x :: y :: ys) ++ [n]))
    with (x +:+ "/" +:+ join_sep ((y :: ys) ++ [n])).
  rewrite IH by done.
  change (join_sep (x :: y :: ys)) with (x +:+ "/" +:+ join_sep (y :: ys)).
  by rewrite !string_app_assoc.
Qed.

(** ** The walk *)

Lemma entry_name_eqb n :
  entry_name n →
  String.eqb n "" = false ∧ String.eqb n "." = false
  ∧ String.eqb n ".." = false.
Proof.
  intros (H1 & _ & H2 & H3).
  split_and!; by apply String.eqb_neq.
Qed.

Lemma walk_cons_name names named n comps :
  entry_name n → walk names named (n :: comps) = walk (n :: names) true comps.
Proof.
  intros (H1 & H2 & H3)%entry_name_eqb. cbn [walk]. by rewrite H1, H2, H3.
Qed.

Lemma walk_snoc_name names named comps n :
  entry_name n →
  walk names named (comps ++ [n]) = (n ::.) <$> walk names named comps.
Proof.
  intros Hn. revert names named.
  induction comps as [|c comps IH]; intros names named.
  - cbn [app]. by rewrite walk_cons_name.
  - cbn [app walk]. rewrite !IH. by repeat case_match.
Qed.

Lemma walk_snoc_empty names named comps :
  walk names named (comps ++ [""]) = walk names named comps.
Proof.
  revert names named. induction comps as [|c comps IH]; intros names named.
  - done.
  - cbn [app walk]. rewrite !IH. done.
Qed.

(** The walk keeps entry names only. *)
Lemma walk_entry_names names named comps names' :
  Forall (λ c, has_sep c = false) comps →
  Forall entry_name names →
  walk names named comps = Some names' → Forall entry_name names'.
Proof.
  intros Hcomps. revert names named.
  induction Hcomps as [|c comps Hc _ IH]; intros names named Hnames.
  - by intros [= <-].
  - cbn [walk].
    destruct (String.eqb_spec c "") as [|H1]; [by apply IH|].
    destruct (String.eqb_spec c ".") as [|H2].
    { destruct named; [done|by apply IH]. }
    destruct (String.eqb_spec c "..") as [|H3].
    { destruct named; [done|]. apply IH. by destruct Hnames. }
    apply IH. by constructor.
Qed.

Lemma cwd_names_entry_names cwd : Forall entry_name (cwd_names cwd).
Proof.
  unfold cwd_names.
  assert (∀ comps names,
            Forall (λ c, has_sep c = false) comps → Forall entry_name names →
            Forall entry_name (foldl cwd_step names comps)) as Hfold.
  { intros comps names Hcomps. revert names.
    induction Hcomps as [|c comps Hc _ IH]; intros names Hnames; [done|].
    cbn [foldl]. apply IH. unfold cwd_step.
    destruct (String.eqb_spec c "") as [|H1]; [done|].
    destruct (String.eqb_spec c ".") as [|H2]; [done|]. cbn [orb].
    destruct (String.eqb_spec c "..") as [|H3]; [by destruct Hnames|].
    by constructor. }
  apply Hfold; [|done]. apply Forall_forall. apply split_sep_elem_no_sep.
Qed.

Lemma path_names_entry_names cwd p names :
  path_names cwd p = Some names → Forall entry_name names.
Proof.
  unfold path_names. destruct (String.eqb p ""); [done|].
  apply walk_entry_names.
  - apply Forall_forall. apply split_sep_elem_no_sep.
  - destruct (starts_with_sep p); [done|apply cwd_names_entry_names].
Qed.

Lemma starts_with_sep_join d n :
  d ≠ "" → has_sep n = false →
  starts_with_sep (os_path_join d n) = starts_with_sep d.
Proof.
  intros Hd Hn.
  rewrite os_path_join_relative by by apply starts_with_sep_has_sep.
  unfold join_prefix. destruct (String.eqb_spec d ""); [done|]. cbn [orb].
  destruct (ends_with_sep d); by destruct d.
Qed.

(** The file at [join(d, n)] is the entry [n] of the file at [d]. *)
Lemma path_names_join cwd d n :
  d ≠ "" → entry_name n →
  path_names cwd (os_path_join d n) = (n ::.) <$> path_names cwd d.
Proof.
  intros Hd Hn. pose proof Hn as (Hne & Hsep & _).
  unfold path_names. rewrite starts_with_sep_join by done.
  destruct (String.eqb_spec d "") as [|_]; [done|].
  destruct (String.eqb_spec (os_path_join d n) "") as [Heq|_].
  { rewrite os_path_join_relative in Heq by by apply starts_with_sep_has_sep.
    by apply string_app_eq_nil in Heq as [_ ?]. }
  destruct (split_sep_join d n) as (cs & -> & [->| ->]); [done..| |].
  - by apply walk_snoc_name.
  - rewrite walk_snoc_empty. by apply walk_snoc_name.
Qed.

(** ** Keys *)

Lemma key_string_cons n names :
  names ≠ [] → key_string (n :: names) = key_string names +:+ "/" +:+ n.
Proof.
  intros Hne. unfold key_string. rewrite reverse_cons.
  rewrite join_sep_snoc
    by (intros Hr; apply (f_equal length) in Hr;
        rewrite length_reverse in Hr; by destruct names).
  by rewrite !string_app_assoc.
Qed.

Lemma key_string_ends names :
  Forall entry_name names → names ≠ [] →
  ends_with_sep (key_string names) = false.
Proof.
  intros Hnames Hne. destruct names as [|n names]; [done|].
  apply Forall_cons in Hnames as [(Hn & Hsep & _) _].
  destruct names as [|m names].
  - unfold key_string. cbn. rewrite ends_with_sep_app by done.
    by apply ends_with_sep_has_sep.
  - rewrite key_string_cons by done. rewrite <-string_app_assoc.
    rewrite ends_with_sep_app by done. by apply ends_with_sep_has_sep.
Qed.

Lemma key_string_ne names : key_string names ≠ "".
Proof. done. Qed.

Lemma key_string_starts names : starts_with_sep (key_string names) = true.
Proof. done. Qed.

(** Head and tail of the key of an entry. *)
Lemma os_path_split_key n names :
  Forall entry_name (n :: names) →
  os_path_split (key_string (n :: names)) = (key_string names, n).
Proof.
  intros [(Hn & Hsep & _) Hnames]%Forall_cons.
  destruct names as [|m names].
  - unfold key_string. cbn [reverse rev_append join_sep].
    unfold os_path_split.
    rewrite (cut_at_last_sep_app "/" n) by (done || by right). done.
  - rewrite key_string_cons by done.
    apply os_path_split_child; [done| |done].
    by apply key_string_ends.
Qed.

(** The entry [b] of the directory with key [k]. *)
Lemma os_path_join_key names b :
  has_sep b = false →
  names ≠ [] → Forall entry_name names →
  os_path_join (key_string names) b = key_string names +:+ "/" +:+ b.
Proof.
  intros Hb Hne Hnames.
  rewrite os_path_join_relative by by apply starts_with_sep_has_sep.
  unfold join_prefix. rewrite key_string_ends by done.
  destruct (String.eqb_spec (key_string names) "") as [|_]; [done|].
  apply string_app_assoc.
Qed.

(** ** [normpath] and [abspath] *)

Lemma normpath_step_absolute initial names comp :
  initial ≠ 0%nat → Forall (λ n, n ≠ "..") names →
  normpath_step initial names comp = cwd_step names comp
  ∧ Forall (λ n, n ≠ "..") (cwd_step names comp).
Proof.
  intros Hi Hnames. unfold normpath_step, cwd_step.
  destruct (String.eqb comp "" || String.eqb comp "."); [done|].
  destruct (String.eqb_spec comp "..") as [->|Hc]; cbn [negb orb].
  - destruct initial; [done|]. cbn [Nat.eqb andb orb].
    rewrite bool_decide_eq_false_2.
    + split; [done|]. by destruct Hnames.
    + destruct Hnames; [done|]. simpl. congruence.
  - split; [done|]. by constructor.
Qed.

Lemma normpath_fold_absolute initial names comps :
  initial ≠ 0%nat → Forall (λ n, n ≠ "..") names →
  foldl (normpath_step initial) names comps = foldl cwd_step names comps.
Proof.
  intros Hi. revert names.
  induction comps as [|c comps IH]; intros names Hnames; [done|].
  cbn [foldl].
  destruct (normpath_step_absolute initial names c) as [-> Hnext]; [done..|].
  by apply IH.
Qed.

(** Where the walk gives an answer it is the one of the lexical rule. *)
Lemma walk_cwd_fold names named comps names' :
  walk names named comps = Some names' → foldl cwd_step names comps = names'.
Proof.
  revert names named. induction comps as [|c comps IH]; intros names named.
  - by intros [= <-].
  - cbn [walk foldl]. unfold cwd_step.
    destruct (String.eqb c ""); [apply IH|]. cbn [orb].
    destruct (String.eqb c "."); [destruct named; [done|apply IH]|].
    destruct (String.eqb c ".."); [destruct named; [done|apply IH]|].
    apply IH.
Qed.

Lemma walk_entry_list names named comps :
  Forall entry_name comps →
  walk names named comps = Some (reverse comps ++ names)%list.
Proof.
  intros Hcomps. revert names named.
  induction Hcomps as [|c comps Hc _ IH]; intros names named; [done|].
  rewrite walk_cons_name by done. rewrite IH, reverse_cons.
  by rewrite <-app_assoc.
Qed.

Lemma initial_slashes_absolute p :
  starts_with_sep p = true → initial_slashes p = 1%nat ∨ initial_slashes p = 2%nat.
Proof.
  destruct p as [|c1 [|c2 [|c3 p]]]; cbn; [done|..]; intros ->;
    repeat case_match; auto.
Qed.

(** [normpath] of an absolute path. *)
Lemma os_path_normpath_absolute p :
  starts_with_sep p = true →
  os_path_normpath p
  = (if Nat.eqb (initial_slashes p) 2 then "//" else "/")
    +:+ join_sep (reverse (foldl cwd_step [] (split_sep p))).
Proof.
  intros Hp. unfold os_path_normpath.
  destruct (String.eqb_spec p "") as [->|_]; [done|].
  rewrite normpath_fold_absolute;
    [|by destruct (initial_slashes_absolute p Hp) as [-> | ->]|done].
  by destruct (initial_slashes_absolute p Hp) as [-> | ->].
Qed.

Lemma cwd_fold_join cwd p :
  cwd ≠ "" → starts_with_sep p = false →
  foldl cwd_step [] (split_sep (os_path_join cwd p))
  = foldl cwd_step (cwd_names cwd) (split_sep p).
Proof.
  intros Hcwd Hp. rewrite os_path_join_relative by done.
  unfold join_prefix, cwd_names.
  destruct (String.eqb_spec cwd "") as [|_]; [done|]. cbn [orb].
  destruct (ends_with_sep cwd) eqn:Hend.
  - apply ends_with_sep_inv in Hend as [c0 ->].
    rewrite string_app_assoc, split_sep_app_sep, foldl_app.
    rewrite <-(string_app_nil_r (c0 +:+ "/")), string_app_assoc.
    rewrite split_sep_app_sep, foldl_app. done.
  - by rewrite string_app_assoc, split_sep_app_sep, foldl_app.
Qed.

Lemma initial_slashes_join cwd p :
  starts_with_sep cwd = true → starts_with_sep p = false →
  starts_with_sep (os_path_join cwd p) = true.
Proof.
  intros Hcwd Hp. rewrite os_path_join_relative by done.
  unfold join_prefix. destruct (_ || _); by destruct cwd.
Qed.

(** The absolute form of a path the walk gives an answer for: one or two
    separators, and the names from the root down. *)
Lemma os_path_abspath_names cwd p names :
  starts_with_sep cwd = true → path_names cwd p = Some names →
  ∃ root, (root = "/" ∨ root = "//")
          ∧ os_path_abspath cwd p = root +:+ join_sep (reverse names).
Proof.
  intros Hcwd. unfold path_names, os_path_abspath.
  destruct (String.eqb_spec p "") as [|Hp]; [done|].
  destruct (starts_with_sep p) eqn:Habs; intros Hwalk.
  - rewrite os_path_join_absolute by done.
    rewrite os_path_normpath_absolute by done.
    rewrite (walk_cwd_fold _ _ _ _ Hwalk).
    eexists. split; [|done]. destruct (Nat.eqb _ _); auto.
  - rewrite os_path_normpath_absolute by by apply initial_slashes_join.
    rewrite cwd_fold_join by (done || by destruct cwd).
    rewrite (walk_cwd_fold _ _ _ _ Hwalk).
    eexists. split; [|done]. destruct (Nat.eqb _ _); auto.
Qed.

Lemma split_sep_join_sep comps :
  comps ≠ [] → Forall entry_name comps → split_sep (join_sep comps) = comps.
Proof.
  intros Hne Hcomps. induction Hcomps as [|c comps Hc Hcomps IH]; [done|].
  destruct comps as [|c' comps].
  - apply split_sep_no_sep. by destruct Hc as (_ & ? & _).
  - change (join_sep (c :: c' :: comps))
      with (c +:+ "/" +:+ join_sep (c' :: comps)).
    rewrite split_sep_app_sep, IH by done.
    rewrite split_sep_no_sep; [done|]. by destruct Hc as (_ & ? & _).
Qed.

Lemma join_sep_starts comps :
  Forall entry_name comps → starts_with_sep (join_sep comps) = false.
Proof.
  intros Hcomps. destruct Hcomps as [|c comps (Hne & Hsep & _) _]; [done|].
  assert (starts_with_sep c = false) as Hc
    by (destruct c; [done|]; cbn in *; by apply orb_false_elim in Hsep as [? _]).
  destruct comps; [done|].
  change (join_sep (c :: s :: comps)) with (c +:+ "/" +:+ join_sep (s :: comps)).
  by destruct c.
Qed.

(** The components of an absolute path in normal form. *)
Lemma walk_normal_form root names names0 named :
  root = "/" ∨ root = "//" → Forall entry_name names →
  walk names0 named (split_sep (root +:+ join_sep (reverse names)))
  = Some (names ++ names0)%list
  ∧ foldl cwd_step [] (split_sep (root +:+ join_sep (reverse names))) = names
  ∧ initial_slashes (root +:+ join_sep (reverse names))
    = (if String.eqb root "//" then 2%nat else 1%nat).
Proof.
  intros Hroot Hnames.
  assert (Forall entry_name (reverse names)) as Hrev
    by by apply Forall_reverse.
  assert (∀ names1 named1,
            walk names1 named1 (split_sep (join_sep (reverse names)))
            = Some (names ++ names1)%list) as Hwalk.
  { intros names1 named1. destruct (decide (names = [])) as [->|Hne]; [done|].
    rewrite split_sep_join_sep; [|by destruct names using rev_ind;
      [|rewrite reverse_app]|done].
    rewrite walk_entry_list by done. by rewrite reverse_involutive. }
  pose proof (join_sep_starts _ Hrev) as Hstart.
  split_and!.
  - destruct Hroot as [-> | ->].
    + change ("/" +:+ ?x) with ("" +:+ "/" +:+ x).
      rewrite split_sep_app_sep. cbn [split_sep app walk String.eqb].
      apply Hwalk.
    + change ("//" +:+ ?x) with ("" +:+ "/" +:+ "" +:+ "/" +:+ x).
      rewrite !split_sep_app_sep. cbn [split_sep app walk String.eqb].
      apply Hwalk.
  - apply (walk_cwd_fold _ false).
    rewrite <-(app_nil_r names) at 2.
    destruct Hroot as [-> | ->].
    + change ("/" +:+ ?x) with ("" +:+ "/" +:+ x).
      rewrite split_sep_app_sep. cbn [split_sep app walk String.eqb].
      apply Hwalk.
    + change ("//" +:+ ?x) with ("" +:+ "/" +:+ "" +:+ "/" +:+ x).
      rewrite !split_sep_app_sep. cbn [split_sep app walk String.eqb].
      apply Hwalk.
  - destruct Hroot as [-> | ->];
      destruct (join_sep (reverse names)) as [|c [|c' s]];
      cbn [starts_with_sep] in Hstart; try done.
    all: try change ("//" +:+ ?x) with (String "/" (String "/" x)).
    all: try change ("/" +:+ ?x) with (String "/" x).
    all: cbn; by rewrite ?Hstart.
Qed.

(** A path in normal form is its own absolute form and names the same
    file from every working directory. *)
Lemma os_path_abspath_normal_form cwd root names :
  root = "/" ∨ root = "//" → Forall entry_name names →
  os_path_abspath cwd (root +:+ join_sep (reverse names))
  = root +:+ join_sep (reverse names)
  ∧ path_names cwd (root +:+ join_sep (reverse names)) = Some names.
Proof.
  intros Hroot Hnames.
  assert (starts_with_sep (root +:+ join_sep (reverse names)) = true) as Habs
    by by destruct Hroot as [-> | ->].
  destruct (walk_normal_form root names [] false) as (Hwalk & Hfold & Hinit);
    [done..|].
  split.
  - unfold os_path_abspath. rewrite os_path_join_absolute by done.
    rewrite os_path_normpath_absolute by done. rewrite Hfold, Hinit.
    by destruct Hroot as [-> | ->].
  - unfold path_names. rewrite Habs.
    destruct (String.eqb_spec (root +:+ join_sep (reverse names)) "") as [Heq|_].
    { by destruct Hroot as [-> | ->]. }
    rewrite Hwalk. by rewrite app_nil_r.
Qed.

(** Decimal numerals hold no separator. *)
Lemma pretty_N_go_no_sep x s : has_sep (pretty_N_go x s) = has_sep s.
Proof.
  revert s. induction (N.lt_wf_0 x) as [x _ IH]; intros s.
  assert (x = 0 ∨ 0 < x)%N as [->|Hx] by lia.
  - by rewrite pretty_N_go_0.
  - rewrite pretty_N_go_step by done. rewrite IH by by apply N.div_lt.
    cbn [has_sep]. unfold pretty_N_char. by repeat case_match.
Qed.

Lemma py_str_no_sep n : has_sep (py_str n) = false.
Proof.
  unfold py_str, pretty, pretty_Z.
  assert (∀ p : positive, has_sep (pretty p) = false) as Hpos.
  { intros p. unfold pretty, pretty_positive, pretty, pretty_N.
    case_decide; [done|]. by rewrite pretty_N_go_no_sep. }
  destruct n as [|p|p]; [done|apply Hpos|].
  rewrite has_sep_app. by rewrite Hpos.
Qed.

(** Folder names are not empty and hold no separator. *)
Lemma batch_folder_name_no_sep n :
  has_sep (batch_folder_name n) = false ∧ batch_folder_name n ≠ "".
Proof.
  unfold batch_folder_name. split; [|done].
  rewrite has_sep_app. by rewrite py_str_no_sep.
Qed.

(** ** Keys of joined and of listed paths *)

Lemma path_key_join cwd d n names :
  entry_name n → path_names cwd d = Some names →
  path_key cwd (os_path_join d n) = key_string (n :: names)
  ∧ path_key cwd d = key_string names
  ∧ Forall entry_name (n :: names).
Proof.
  intros Hn Hd. assert (d ≠ "") as Hne by (by intros ->).
  unfold path_key. rewrite path_names_join, Hd by done.
  split_and!; [done..|]. constructor; [done|].
  by eapply path_names_entry_names.
Qed.

Lemma path_key_join_None cwd d n :
  d ≠ "" → entry_name n → path_names cwd d = None →
  path_key cwd (os_path_join d n) = "" ∧ path_key cwd d = "".
Proof.
  intros Hne Hn Hd. unfold path_key. by rewrite path_names_join, Hd.
Qed.

(** The key of the entry [n] of the directory with key [key_string names]. *)
Lemma key_string_nil : key_string [] = "/".
Proof. done. Qed.

Lemma key_string_singleton n : key_string [n] = "/" +:+ n.
Proof. done. Qed.

Lemma os_path_join_key_string names n :
  Forall entry_name names → has_sep n = false →
  os_path_join (key_string names) n = key_string (n :: names).
Proof.
  intros Hnames Hn. destruct names as [|m names].
  - rewrite os_path_join_relative by by apply starts_with_sep_has_sep.
    rewrite key_string_nil, key_string_singleton. reflexivity.
  - rewrite os_path_join_key by done.
    by rewrite (key_string_cons n (m :: names)).
Qed.

Lemma key_string_cons_ne names n :
  n ≠ "" → key_string (n :: names) ≠ key_string names.
Proof.
  intros Hn. destruct names as [|m names].
  - rewrite key_string_nil, key_string_singleton. by apply string_app_ne.
  - rewrite key_string_cons by done. by apply string_app_ne.
Qed.

(** The key of an entry is cut into the key of its directory and its
    name. *)
Lemma key_string_child names n :
  Forall entry_name (n :: names) →
  key_string (n :: names) ≠ ""
  ∧ ends_with_sep (key_string (n :: names)) = false
  ∧ os_path_dirname (key_string (n :: names)) = key_string names
  ∧ os_path_basename (key_string (n :: names)) = n
  ∧ key_string (n :: names) ≠ key_string names.
Proof.
  intros Hnames. pose proof (os_path_split_key n names Hnames) as Hsplit.
  unfold os_path_dirname, os_path_basename. rewrite Hsplit.
  split_and!; [done|by apply key_string_ends|done|done|].
  apply Forall_cons in Hnames as [(Hn & _) _]. by apply key_string_cons_ne.
Qed.

Lemma batch_folder_name_entry n : entry_name (batch_folder_name n).
Proof.
  destruct (batch_folder_name_no_sep n) as [Hsep Hne]. by split_and!.
Qed.

(** A path the lister builds, when the walk gives an answer for the
    directory: it is absolute and in normal form, its base name is the
    entry name, and it names the entry of that name. *)
Lemma listed_path cwd d n names :
  starts_with_sep cwd = true → entry_name n → path_names cwd d = Some names →
  starts_with_sep (os_path_abspath cwd (os_path_join d n)) = true
  ∧ os_path_abspath cwd (os_path_abspath cwd (os_path_join d n))
    = os_path_abspath cwd (os_path_join d n)
  ∧ os_path_basename (os_path_abspath cwd (os_path_join d n)) = n
  ∧ path_key cwd (os_path_abspath cwd (os_path_join d n))
    = key_string (n :: names).
Proof.
  intros Hcwd Hn Hd. assert (d ≠ "") as Hne by (by intros ->).
  assert (path_names cwd (os_path_join d n) = Some (n :: names)) as Hjoin
    by by rewrite path_names_join, Hd.
  assert (Forall entry_name (n :: names)) as Hnames
    by by eapply path_names_entry_names.
  destruct (os_path_abspath_names cwd _ _ Hcwd Hjoin) as (root & Hroot & ->).
  destruct (os_path_abspath_normal_form cwd root (n :: names))
    as [Hidem Hkey]; [done..|].
  split_and!.
  - by destruct Hroot as [-> | ->].
  - done.
  - rewrite reverse_cons. destruct Hn as (Hn & Hsep & _).
    destruct (decide (names = [])) as [->|Hnn].
    + apply os_path_basename_app; [done|]. right. by destruct Hroot as [-> | ->].
    + rewrite join_sep_snoc
        by (intros Hr; apply (f_equal length) in Hr;
            rewrite length_reverse in Hr; by destruct names).
      rewrite <-!string_app_assoc. apply os_path_basename_app; [done|].
      right. by rewrite ends_with_sep_app.
  - unfold path_key. by rewrite Hkey.
Qed.

(** ** Directory entries *)

Lemma elem_of_dir_entries (fs : gmap string node) d n :
  n ∈ dir_entries fs d
  ↔ ∃ q, is_Some (fs !! q) ∧ q ≠ d ∧ os_path_dirname q = d
         ∧ os_path_basename q = n ∧ n ≠ "".
Proof.
  unfold dir_entries. rewrite list_elem_of_omap. split.
  - intros (q & Hq & Hn). case_bool_decide as Hcond; [|done].
    injection Hn as <-. destruct Hcond as (? & ? & ?).
    apply list_elem_of_fmap in Hq as ([q' v] & -> & Hq).
    apply elem_of_map_to_list in Hq. exists q'. simpl. eauto 10.
  - intros (q & [v Hv] & Hne & Hdir & <- & Hbase). exists q. split.
    + apply list_elem_of_fmap. exists (q, v). split; [done|].
      by apply elem_of_map_to_list.
    + by rewrite bool_decide_eq_true_2.
Qed.

Lemma dir_entries_names (fs : gmap string node) d n :
  n ∈ dir_entries fs d → has_sep n = false ∧ n ≠ "".
Proof.
  intros (q & _ & _ & _ & <- & Hne)%elem_of_dir_entries.
  split; [apply os_path_basename_no_sep|done].
Qed.

Section lister_names.
Context {G : Type} `{!Rng G}.

(** X10: the listed paths name the entries.  Let the working directory
    be an absolute path, the directory exist, and its entries have names
    other than [.] and [..], as the entries of a directory have.  Then,
    however the directory was spelled ([in], [in/], [./in], [//in] or
    relative to the parent of the working directory), the list
    [gather_filenames] returns holds for each entry, in listing order, a
    path whose base name is the entry name and whose file is that entry
    of the directory; every listed path is absolute and in normal form:
    making it absolute again changes nothing. *)
Theorem gather_filenames_keeps_names (directory_path : string) (w : world G) :
  starts_with_sep (w_cwd w) = true →
  w_fs w !! key_of w directory_path = Some Dir →
  w_fs w !! "" = None →
  (∀ n, n ∈ dir_entries (w_fs w) (key_of w directory_path) →
        n ≠ "." ∧ n ≠ "..") →
  ∃ (l : loc) (w' : world G) (paths : list string),
    gather_filenames directory_path w = (w', Ok l)
    ∧ w_heap w' !! l = Some paths
    ∧ os_path_basename <$> paths
      = dir_entries (w_fs w) (key_of w directory_path)
    ∧ key_of w <$> paths
      = os_path_join (key_of w directory_path)
        <$> dir_entries (w_fs w) (key_of w directory_path)
    ∧ (∀ p, p ∈ paths →
            starts_with_sep p = true ∧ os_path_abspath (w_cwd w) p = p).
Proof.
  intros Hcwd Hdir Hempty Hdots.
  assert (∃ names, path_names (w_cwd w) directory_path = Some names
                   ∧ key_of w directory_path = key_string names)
    as (names & Hnames & Hkey).
  { unfold key_of, path_key in *.
    destruct (path_names (w_cwd w) directory_path) as [names|]; [eauto|].
    simpl in Hdir. congruence. }
  assert (∀ n, n ∈ dir_entries (w_fs w) (key_of w directory_path) →
               entry_name n) as Hentry.
  { intros n Hn. destruct (dir_entries_names _ _ _ Hn), (Hdots n Hn).
    by split_and!. }
  do 2 eexists. exists (listing w directory_path).
  split_and!; [by apply gather_filenames_run|apply listing_heap_lookup|..].
  - unfold listing. rewrite <-list_fmap_compose.
    etrans; [|apply list_fmap_id].
    apply list_fmap_ext. intros _ n Hn%list_elem_of_lookup_2.
    unfold compose. simpl.
    by destruct (listed_path (w_cwd w) directory_path n names)
      as (_ & _ & -> & _); [|apply Hentry|..].
  - unfold listing. rewrite <-list_fmap_compose.
    apply list_fmap_ext. intros _ n Hn%list_elem_of_lookup_2.
    unfold compose. simpl.
    destruct (listed_path (w_cwd w) directory_path n names)
      as (_ & _ & _ & Hk); [done|by apply Hentry|done|].
    unfold key_of at 1. rewrite Hk, Hkey.
    symmetry. apply os_path_join_key_string.
    + by eapply path_names_entry_names.
    + by destruct (Hentry n Hn) as (_ & ? & _).
  - intros p (n & -> & Hn)%list_elem_of_fmap.
    by destruct (listed_path (w_cwd w) directory_path n names)
      as (? & ? & _); [|apply Hentry|..].
Qed.

End lister_names.

(** ** Batch folders and what is copied into them *)

(** The key of [join(directory, name)] for an entry name: the entry
    [name] of a directory, unless the walk gives no answer for
    [directory]. *)
Lemma path_key_join_cases cwd directory name :
  entry_name name →
  path_key cwd (os_path_join directory name) = ""
  ∨ ∃ names, Forall entry_name (name :: names)
             ∧ path_key cwd (os_path_join directory name)
               = key_string (name :: names).
Proof.
  intros Hname. destruct (decide (directory = "")) as [->|Hne].
  - right. exists (cwd_names cwd). pose proof Hname as (Hn & Hsep & _).
    assert (os_path_join "" name = name) as ->.
    { unfold os_path_join. by rewrite starts_with_sep_has_sep. }
    split; [constructor; [done|apply cwd_names_entry_names]|].
    unfold path_key, path_names.
    rewrite starts_with_sep_has_sep by done.
    destruct (String.eqb_spec name "") as [|_]; [done|].
    by rewrite split_sep_no_sep, walk_cons_name.
  - destruct (path_names cwd directory) as [names|] eqn:Hd.
    + right. exists names.
      by destruct (path_key_join cwd directory name names) as (-> & _ & ?).
    + left. by destruct (path_key_join_None cwd directory name) as [-> _].
Qed.

(** Nothing can be made at the empty key. *)
Lemma makedirs_at_empty fuel (fs fs' : gmap string node) :
  makedirs_at fuel "" fs ≠ (fs', Ok tt).
Proof.
  assert (mkdir_at "" fs ≠ (fs', Ok tt)) as Hmk.
  { unfold mkdir_at. change (os_path_dirname "") with "".
    by destruct (fs !! "") as [[]|]. }
  by destruct fuel.
Qed.

Lemma batch_folder_path_shape directory n :
  batch_folder_path directory n ≠ ""
  ∧ ends_with_sep (batch_folder_path directory n) = false.
Proof.
  destruct (batch_folder_name_no_sep n) as [Hsep Hne].
  unfold batch_folder_path.
  rewrite os_path_join_relative by by apply starts_with_sep_has_sep.
  split.
  - intros [_ ?]%string_app_eq_nil. done.
  - rewrite ends_with_sep_app by done. by apply ends_with_sep_has_sep.
Qed.

Lemma mkdir_at_ok p (fs fs' : gmap string node) :
  mkdir_at p fs = (fs', Ok tt) → fs' = <[p:=Dir]> fs ∧ fs !! p = None.
Proof.
  unfold mkdir_at. destruct (fs !! p); [done|].
  destruct (fs !! os_path_dirname p) as [[]|]; try done. by intros [= <-].
Qed.

(** A successful [os.makedirs] leaves a directory at the path. *)
Lemma makedirs_at_ok_leaf fuel name (fs fs' : gmap string node) :
  os_path_basename name ≠ "" → os_path_basename name ≠ "." →
  makedirs_at fuel name fs = (fs', Ok tt) → fs' !! name = Some Dir.
Proof.
  unfold os_path_basename. intros Hne Hdot.
  assert (∀ fs0, mkdir_at name fs0 = (fs', Ok tt) → fs' !! name = Some Dir)
    as Hmk.
  { intros fs0 [-> _]%mkdir_at_ok. apply lookup_insert_eq. }
  destruct fuel as [|fuel]; cbn [makedirs_at];
    destruct (os_path_split name) as [h t]; simpl in *;
    destruct (String.eqb_spec t ""); try done; [apply Hmk|].
  destruct (String.eqb_spec t "."); [done|].
  destruct (_ && _); [|apply Hmk].
  destruct (makedirs_at fuel h fs) as [fs1 [[]|e]]; [apply Hmk|].
  destruct e; try done. apply Hmk.
Qed.

Lemma bind_ok_inv {G A B} (m : M G A) (k : A → M G B) b (w w' : world G) :
  (m ≫= k) w = (w', Ok b) → ∃ a w1, m w = (w1, Ok a) ∧ k a w1 = (w', Ok b).
Proof.
  unfold mbind, M_bind, bind. destruct (m w) as [w1 [a|e]]; [eauto|done].
Qed.

Section materializer_inversion.
Context {G : Type} `{!Rng G}.

Lemma shutil_copy_ok_inv src dst (w w' : world G) :
  shutil_copy src dst w = (w', Ok tt) →
  w_fs w !! key_of w dst = Some Dir →
  ∃ c, w' = set_fs (<[batch_target w dst src:=File c]> (w_fs w)) w
       ∧ w_fs w !! key_of w src = Some (File c)
       ∧ w_fs w !! batch_target w dst src ≠ Some Dir.
Proof.
  unfold shutil_copy, copy_target. intros Hrun Hdst. rewrite Hdst in Hrun.
  fold (batch_target w dst src) in Hrun.
  case_bool_decide; [done|].
  destruct (w_fs w !! key_of w src) as [[c|]|]; try done.
  destruct (w_fs w !! batch_target w dst src) as [[c'|]|] eqn:Ht; try done;
    injection Hrun as <-; exists c; by split_and!.
Qed.

(** A copy loop that ended well left the folder a directory, every
    regular file a regular file, and a regular file at the target of each
    member. *)
Lemma copy_loop_ok_inv (files : list string) folder (w w' : world G) :
  for_each files (λ filepath, shutil_copy filepath folder) w = (w', Ok tt) →
  w_fs w !! key_of w folder = Some Dir →
  ∃ fs' : gmap string node,
    w' = set_fs fs' w
    ∧ fs' !! key_of w folder = Some Dir
    ∧ (∀ q c, w_fs w !! q = Some (File c) → ∃ c', fs' !! q = Some (File c'))
    ∧ (∀ f, f ∈ files → ∃ c, fs' !! batch_target w folder f = Some (File c)).
Proof.
  revert w. induction files as [|f files IH]; intros w Hrun Hdir.
  - injection Hrun as <-. exists (w_fs w).
    split_and!; [by destruct w|done|eauto|set_solver].
  - cbn [for_each] in Hrun.
    apply bind_ok_inv in Hrun as ([] & w1 & Hcopy & Hrest).
    apply shutil_copy_ok_inv in Hcopy as (c & -> & Hsrc & Hfree); [|done].
    set (t := batch_target w folder f) in *.
    assert (t ≠ key_of w folder) as Hne by congruence.
    apply IH in Hrest as (fs' & -> & Hdir' & Hkeep & Hfiles).
    2:{ simpl. by rewrite lookup_insert_ne. }
    exists fs'. split_and!; [done|done|..].
    + intros q c0 Hq. destruct (decide (q = t)) as [->|Hqt].
      * apply (Hkeep t c). simpl. apply lookup_insert_eq.
      * apply (Hkeep q c0). simpl. by rewrite lookup_insert_ne.
    + intros f' [->|Hf']%elem_of_cons; [|by apply Hfiles].
      apply (Hkeep t c). simpl. apply lookup_insert_eq.
Qed.

(** A member is copied to the folder path, a separator and the base name
    of the member: a file directly inside the folder. *)
Lemma batch_target_child (w : world G) folder f :
  key_of w folder ≠ "" → ends_with_sep (key_of w folder) = false →
  batch_target w folder f = key_of w folder +:+ "/" +:+ os_path_basename f
  ∧ os_path_split (batch_target w folder f)
    = (key_of w folder, os_path_basename f)
  ∧ batch_target w folder f ≠ key_of w folder.
Proof.
  intros Hne Hend. pose proof (os_path_basename_no_sep f) as Hsep.
  assert (batch_target w folder f
          = key_of w folder +:+ "/" +:+ os_path_basename f) as Htarget.
  { unfold batch_target.
    rewrite os_path_join_relative by by apply starts_with_sep_has_sep.
    unfold join_prefix. rewrite Hend.
    destruct (String.eqb_spec (key_of w folder) "") as [|_]; [done|].
    apply string_app_assoc. }
  rewrite Htarget. split_and!.
  - done.
  - by apply os_path_split_child.
  - by apply string_app_ne.
Qed.

(** What a call of [create_batch_folder] that ended well left behind. *)
Lemma create_batch_folder_ok_inv files name directory (w w' : world G) :
  create_batch_folder files name directory w = (w', Ok tt) →
  entry_name name →
  ∃ fs' : gmap string node,
    w' = set_fs fs' w
    ∧ key_of w (os_path_join directory name) ≠ ""
    ∧ ends_with_sep (key_of w (os_path_join directory name)) = false
    ∧ fs' !! key_of w (os_path_join directory name) = Some Dir
    ∧ (∀ f, f ∈ files →
         ∃ c, fs' !! batch_target w (os_path_join directory name) f
              = Some (File c)).
Proof.
  intros Hrun Hname. unfold create_batch_folder in Hrun.
  set (folder := os_path_join directory name) in *.
  apply bind_ok_inv in Hrun as (present & w0 & Hex & Hrun).
  injection Hex as <- <-.
  apply bind_ok_inv in Hrun as ([] & wa & Hrm & Hrun).
  assert (∃ fsa, wa = set_fs fsa w) as [fsa ->].
  { destruct (bool_decide _).
    - unfold os_rmdir in Hrm.
      destruct (w_fs w !! key_of w folder) as [[]|]; try done.
      destruct (dir_entries _ _); [|done]. injection Hrm as <-. eauto.
    - injection Hrm as <-. exists (w_fs w). by destruct w. }
  apply bind_ok_inv in Hrun as ([] & wb & Hmk & Hloop).
  unfold os_makedirs in Hmk.
  change (key_of (set_fs fsa w)) with (key_of w) in Hmk. cbn [w_fs set_fs] in Hmk.
  destruct (makedirs_at _ _ fsa) as [fsb r] eqn:Hmake.
  injection Hmk as <- ->.
  destruct (path_key_join_cases (w_cwd w) directory name Hname)
    as [Hnone|(names & Hnames & Hkey)].
  { change (key_of w folder = "") in Hnone.
    rewrite Hnone in Hmake. by apply makedirs_at_empty in Hmake. }
  change (key_of w folder = key_string (name :: names)) in Hkey.
  destruct (key_string_child names name Hnames)
    as (Hkne & Hkend & _ & Hbase & _).
  rewrite <-Hkey in *. pose proof Hname as (? & _ & ? & _).
  apply makedirs_at_ok_leaf in Hmake; [|by rewrite Hbase..].
  apply copy_loop_ok_inv in Hloop as (fs' & -> & Hdir & _ & Hfiles); [|done].
  exists fs'. by split_and!.
Qed.

(** X11: a batch folder that was filled cannot be filled again.  After a
    call for batch [batch_no] that ended well with at least one member,
    every further call for the same batch number and output directory
    raises the error of [os.rmdir] on a directory that is not empty, and
    changes nothing: the program cannot be run twice into the same
    output directory. *)
Theorem create_batch_folder_twice_fails
    (files files' : list string) (batch_no : Z) (directory : string)
    (w w' : world G) :
  files ≠ [] → (∀ f, f ∈ files → os_path_basename f ≠ "") →
  create_batch_folder files (batch_folder_name batch_no) directory w
  = (w', Ok tt) →
  create_batch_folder files' (batch_folder_name batch_no) directory w'
  = (w', Raise DirectoryNotEmpty).
Proof.
  intros Hfiles Hnamed Hrun.
  apply create_batch_folder_ok_inv in Hrun
    as (fs' & -> & Hkne & Hkend & Hdir & Hcopies);
    [|apply batch_folder_name_entry].
  fold (batch_folder_path directory batch_no) in *.
  set (folder := batch_folder_path directory batch_no) in *.
  apply create_batch_folder_not_empty; [done|].
  change (key_of (set_fs fs' w)) with (key_of w). cbn [w_fs set_fs].
  destruct files as [|f files]; [done|].
  destruct (Hcopies f) as [c Hc]; [by left|].
  destruct (batch_target_child w folder f) as (_ & Hsplit & Hneq); [done..|].
  assert (os_path_basename f ∈ dir_entries fs' (key_of w folder)) as Hin.
  { apply elem_of_dir_entries. exists (batch_target w folder f).
    split_and!; [eauto|done|..|apply Hnamed; by left].
    - unfold os_path_dirname. by rewrite Hsplit.
    - unfold os_path_basename at 1. by rewrite Hsplit. }
  intros Hnil. change (dir_entries fs' (key_of w folder) = []) in Hnil.
  rewrite Hnil in Hin. by apply elem_of_nil in Hin.
Qed.

End materializer_inversion.

Section materializer_fidelity.
Context {G : Type} `{!Rng G}.





End materializer_fidelity.

Section materializer_all.
Context {G : Type} `{!Rng G}.






End materializer_all.

(** ** A whole run *)






Section whole_run.
Context {G : Type} `{!Rng G}.



End whole_run.

(** ** The further properties on the sample worlds *)



(** Listing [/in]. *)
Lemma gather_filenames_new_list_witness :
  ∃ l w', gather_filenames "/in" (sample_world 1 sample_fs) = (w', Ok l)
          ∧ w_heap w' !! l
            = Some ["/in/c"; "/in/e"; "/in/a"; "/in/b"; "/in/d"].
Proof.
  destruct (gather_filenames_new_list "/in" (sample_world 1 sample_fs))
    as (l & w' & Hrun & _ & Hlist & _); [vm_compute; reflexivity|].
  exists l, w'. split; [exact Hrun|]. rewrite Hlist. vm_compute. reflexivity.
Defined.


(** Five paths and a batch size of 100. *)
Lemma split_single_batch_witness :
  ∃ ordered,
    (split_filepaths_into_batches 0%nat (PyInt 100) (PyBool true) PyNone
       (sample_heap_world 1)).2 = Ok [(1, ordered)]
    ∧ length ordered = 5%nat.
Proof.
  destruct (split_single_batch 0%nat (PyInt 100) (PyBool true) PyNone 100
              ["/in/a"; "/in/b"; "/in/c"; "/in/d"; "/in/e"]
              (sample_heap_world 1))
    as (ordered & Hrun & _ & Hperm);
    [reflexivity|reflexivity|discriminate|simpl; lia|].
  exists ordered. split; [exact Hrun|].
  apply Permutation_length in Hperm. exact Hperm.
Defined.

(** No shuffle, with and without a seed. *)
Lemma split_unshuffled_effects_witness :
  (split_filepaths_into_batches 0%nat (PyInt 2) (PyBool false) PyNone
     (sample_heap_world 1)).1 = sample_heap_world 1
  ∧ w_rng (split_filepaths_into_batches 0%nat (PyInt 2) (PyBool false)
             (PyInt 5) (sample_heap_world 1)).1 = 5.
Proof.
  split.
  - destruct (split_unshuffled_effects 0%nat (PyInt 2) (PyBool false) PyNone
                ["/in/a"; "/in/b"; "/in/c"; "/in/d"; "/in/e"]
                (sample_heap_world 1)) as [Hpure _];
      [reflexivity|reflexivity|].
    apply Hpure. reflexivity.
  - destruct (split_unshuffled_effects 0%nat (PyInt 2) (PyBool false) (PyInt 5)
                ["/in/a"; "/in/b"; "/in/c"; "/in/d"; "/in/e"]
                (sample_heap_world 1)) as [_ Hseed];
      [reflexivity|reflexivity|].
    rewrite Hseed by discriminate. reflexivity.
Defined.

(** A shuffled and an unshuffled call on lists of five paths. *)
Lemma split_shape_independent_of_order_witness :
  ∃ batches1 batches2,
    (split_filepaths_into_batches 0%nat (PyInt 2) (PyBool true) (PyInt 5)
       (sample_heap_world 1)).2 = Ok batches1
    ∧ (split_filepaths_into_batches 0%nat (PyInt 2) (PyBool false) PyNone
         (sample_heap_world 2)).2 = Ok batches2
    ∧ length <$> batches1.*2 = length <$> batches2.*2.
Proof.
  destruct (split_shape_independent_of_order 0%nat 0%nat (PyInt 2)
              (PyBool true) (PyBool false) (PyInt 5) PyNone 2
              ["/in/a"; "/in/b"; "/in/c"; "/in/d"; "/in/e"]
              ["/in/a"; "/in/b"; "/in/c"; "/in/d"; "/in/e"]
              (sample_heap_world 1) (sample_heap_world 2))
    as (b1 & b2 & H1 & H2 & _ & Hlen);
    [reflexivity|reflexivity|reflexivity|reflexivity|lia|].
  exists b1, b2. split_and!; [exact H1|exact H2|exact Hlen].
Defined.

(** A regular file at [/out/Batch 1]. *)
Lemma create_batch_folder_over_file_witness :
  create_batch_folder ["/in/a"] (batch_folder_name 1) "/out"
    (sample_world 1 sample_fs_blocked)
  = (sample_world 1 sample_fs_blocked, Raise NotADirectoryError).
Proof.
  apply (create_batch_folder_over_file ["/in/a"] (batch_folder_name 1) "/out"
           "x" (sample_world 1 sample_fs_blocked)).
  vm_compute. reflexivity.
Defined.


(** Batch 2 fails on a missing member after batch 1 was made. *)
Lemma create_all_batches_stops_at_failure_witness :
  (create_all_batches [(1, ["/in/a"]); (2, ["/in/zz"]); (3, ["/in/b"])] "/out"
     (sample_world 1 sample_fs)).2 = Raise FileNotFoundError.
Proof.
  change [(1, ["/in/a"]); (2, ["/in/zz"]); (3, ["/in/b"])]
    with ([(1, ["/in/a"])] ++ (2, ["/in/zz"]) :: [(3, ["/in/b"])])%list.
  rewrite (create_all_batches_stops_at_failure [(1, ["/in/a"])]
             [(3, ["/in/b"])] 2 ["/in/zz"] "/out" FileNotFoundError
             (sample_world 1 sample_fs)
             (create_all_batches [(1, ["/in/a"])] "/out"
                (sample_world 1 sample_fs)).1
             (create_batch_folder ["/in/zz"] (batch_folder_name 2) "/out"
                (create_all_batches [(1, ["/in/a"])] "/out"
                   (sample_world 1 sample_fs)).1).1).
  - reflexivity.
  - vm_compute. reflexivity.
  - vm_compute. reflexivity.
Defined.

(** A command line without -d, and one naming a missing directory. *)
Lemma main_writes_nothing_before_materializing_witness :
  main (Cli None None None None None) (sample_world 1 sample_fs)
  = (sample_world 1 sample_fs, Raise (SystemExit 2))
  ∧ (main (Cli (Some "/nowhere") None None None None)
       (sample_world 1 sample_fs)).2 = Raise FileNotFoundError.
Proof.
  split.
  - destruct (main_writes_nothing_before_materializing
                (Cli None None None None None) (sample_world 1 sample_fs))
      as (_ & _ & Hexit).
    apply Hexit. reflexivity.
  - destruct (main_writes_nothing_before_materializing
                (Cli (Some "/nowhere") None None None None)
                (sample_world 1 sample_fs)) as (_ & Hraise & _).
    rewrite (Hraise FileNotFoundError); [reflexivity|].
    vm_compute. reflexivity.
Defined.


(** Listing [in/] from the working directory [/]. *)
Lemma gather_filenames_keeps_names_witness :
  ∃ l w' paths,
    gather_filenames "in/" (sample_world 1 sample_fs) = (w', Ok l)
    ∧ w_heap w' !! l = Some paths
    ∧ os_path_basename <$> paths = ["c"; "e"; "a"; "b"; "d"]
    ∧ key_of (sample_world 1 sample_fs) <$> paths
      = ["/in/c"; "/in/e"; "/in/a"; "/in/b"; "/in/d"].
Proof.
  assert (dir_entries sample_fs (key_of (sample_world 1 sample_fs) "in/")
          = ["c"; "e"; "a"; "b"; "d"]) as Hentries by (vm_compute; reflexivity).
  destruct (gather_filenames_keeps_names "in/" (sample_world 1 sample_fs))
    as (l & w' & paths & Hrun & Hlist & Hnames & Hkeys & _).
  - reflexivity.
  - vm_compute. reflexivity.
  - vm_compute. reflexivity.
  - intros n Hn. change (w_fs (sample_world 1 sample_fs)) with sample_fs in Hn.
    rewrite Hentries in Hn. clear Hentries. each_member Hn; by split.
  - exists l, w', paths. split_and!; [exact Hrun|exact Hlist|..].
    + rewrite Hnames. vm_compute. reflexivity.
    + rewrite Hkeys. vm_compute. reflexivity.
Defined.

(** Batch 1 made from [/in/a], then asked for again. *)
Lemma create_batch_folder_twice_fails_witness :
  create_batch_folder ["/in/b"] (batch_folder_name 1) "/out"
    (create_batch_folder ["/in/a"] (batch_folder_name 1) "/out"
       (sample_world 1 sample_fs)).1
  = ((create_batch_folder ["/in/a"] (batch_folder_name 1) "/out"
        (sample_world 1 sample_fs)).1,
     Raise DirectoryNotEmpty).
Proof.
  apply (create_batch_folder_twice_fails ["/in/a"] ["/in/b"] 1 "/out"
           (sample_world 1 sample_fs)).
  - discriminate.
  - intros f Hf. each_member Hf. vm_compute. discriminate.
  - vm_compute. reflexivity.
Defined.



